(** * OpenAlex searcher: query normalisation, abstract reconstruction,
      record parsing, paginated retrieval and CSV consolidation.

    A shallow embedding of [openalex_search.py] (class [OpenAlexSearcher]).

    Conventions of the embedding.
    - A Python [str] is a [string] of 8-bit characters; the development reads
      it as ASCII text.  [upper], [strip] and [len] act on those characters.
    - A JSON object of the remote API is a record whose fields are
      [field A]: the key may be absent, present with [null], or present with
      a value.  [dict.get(k, default)] is [get_or].
    - A Python exception is a constructor of [exn]; code that may raise
      returns [result A].
    - The network, the clock and the CSV file are explicit arguments. *)

From Stdlib Require Import ZArith List String Ascii Bool Arith Lia.
From Stdlib Require Import Sorting.Sorted Sorting.Permutation.
From Stdlib Require Import Numbers.DecimalString.
Import ListNotations.

Local Open Scope string_scope.
Local Open Scope list_scope.

(** ** Python strings *)

Module PyStr.

(** [s.upper()] on ASCII letters. *)
Definition upper_ascii (c : ascii) : ascii :=
  let n := nat_of_ascii c in
  if (97 <=? n)%nat && (n <=? 122)%nat then ascii_of_nat (n - 32) else c.

Fixpoint upper (s : string) : string :=
  match s with
  | EmptyString => EmptyString
  | String c s' => String (upper_ascii c) (upper s')
  end.

(** [sub in s] *)
Fixpoint contains (sub s : string) : bool :=
  String.prefix sub s ||
  match s with
  | EmptyString => false
  | String _ s' => contains sub s'
  end.

(** [s.split(c)] for a one-character separator: never the empty list. *)
Fixpoint split (c : ascii) (s : string) : list string :=
  match s with
  | EmptyString => [EmptyString]
  | String a s' =>
      if Ascii.eqb a c then EmptyString :: split c s'
      else match split c s' with
           | h :: t => String a h :: t
           | [] => [String a EmptyString]
           end
  end.

(** [c.isspace()] on the ASCII range: TAB, LF, VT, FF, CR, FS, GS, RS, US
    and the space. *)
Definition is_space (c : ascii) : bool :=
  let n := nat_of_ascii c in
  ((9 <=? n)%nat && (n <=? 13)%nat) ||
  ((28 <=? n)%nat && (n <=? 32)%nat).

Fixpoint lstrip (s : string) : string :=
  match s with
  | EmptyString => EmptyString
  | String c s' => if is_space c then lstrip s' else s
  end.

Fixpoint rstrip (s : string) : string :=
  match s with
  | EmptyString => EmptyString
  | String c s' =>
      match rstrip s' with
      | EmptyString => if is_space c then EmptyString else String c EmptyString
      | r => String c r
      end
  end.

(** [s.strip()] *)
Definition strip (s : string) : string := rstrip (lstrip s).

(** [sep.join(l)] *)
Definition join (sep : string) (l : list string) : string :=
  String.concat sep l.

Definition startswith (s p : string) : bool := String.prefix p s.

Definition endswith (s p : string) : bool :=
  (String.length p <=? String.length s)%nat &&
  String.eqb (substring (String.length s - String.length p)
                        (String.length p) s) p.

(** Truth value of a string: non-empty. *)
Definition truthy (s : string) : bool :=
  match s with EmptyString => false | _ => true end.

(** [s.replace(old, '')] for a non-empty [old]: every occurrence, scanning
    left to right without overlap.  [skip] counts the characters of the
    occurrence being dropped. *)
Fixpoint remove_from (old s : string) (skip : nat) : string :=
  match s with
  | EmptyString => EmptyString
  | String c s' =>
      match skip with
      | S k => remove_from old s' k
      | O => if String.prefix old s
             then remove_from old s' (String.length old - 1)
             else String c (remove_from old s' 0)
      end
  end.

Definition remove_all (old s : string) : string := remove_from old s 0.

(** [str(n)] of an [int]. *)
Definition str_of_Z (z : Z) : string :=
  NilZero.string_of_int (Z.to_int z).

End PyStr.

(** ** Query normaliser *)

Definition quote : string := String (ascii_of_nat 34) EmptyString.
Definition comma : ascii := ascii_of_nat 44.
Definition space : string := " ".

(** One pass of the [for term in terms] loop body. *)
Definition format_term (formatted_terms : list string) (term : string)
  : list string :=
  let term := PyStr.strip term in
  if PyStr.truthy term &&
     negb (PyStr.startswith term quote && PyStr.endswith term quote)
  then
    if PyStr.contains space term
    then formatted_terms ++ [(quote ++ term ++ quote)%string]
    else formatted_terms ++ [term]
  else if PyStr.truthy term
  then formatted_terms ++ [term]
  else formatted_terms.

Definition _format_query_for_openalex (query : string) : string :=
  if PyStr.contains "," query
     && negb (PyStr.contains "OR" (PyStr.upper query))
     && negb (PyStr.contains "AND" (PyStr.upper query))
  then
    let terms :=
      map PyStr.strip
          (filter (fun term => PyStr.truthy (PyStr.strip term))
                  (PyStr.split comma query)) in
    let formatted_terms := fold_left format_term terms [] in
    PyStr.join " OR " formatted_terms
  else query.

(** What the loop appends for one stripped, non-empty term. *)
Definition quote_if_needed (term : string) : string :=
  if negb (PyStr.startswith term quote && PyStr.endswith term quote)
     && PyStr.contains space term
  then (quote ++ term ++ quote)%string
  else term.

(** The comma rule with the operator test read on whole tokens, a token
    being a maximal run of letters and digits. *)
Definition is_alnum (c : ascii) : bool :=
  let n := nat_of_ascii c in
  ((48 <=? n)%nat && (n <=? 57)%nat) ||
  ((65 <=? n)%nat && (n <=? 90)%nat) ||
  ((97 <=? n)%nat && (n <=? 122)%nat).

Fixpoint tokens (s : string) : list string :=
  match s with
  | EmptyString => [EmptyString]
  | String c s' =>
      if is_alnum c
      then match tokens s' with
           | h :: t => String c h :: t
           | [] => [String c EmptyString]
           end
      else EmptyString :: tokens s'
  end.

Definition has_token (t query : string) : bool :=
  existsb (fun w => String.eqb (PyStr.upper w) t) (tokens query).

Definition normalize_spec (query : string) : string :=
  if PyStr.contains "," query
     && negb (has_token "AND" query) && negb (has_token "OR" query)
  then PyStr.join " OR "
         (map quote_if_needed
              (filter PyStr.truthy
                      (map PyStr.strip (PyStr.split comma query))))
  else query.

(** ** Python values, exceptions and JSON objects *)

Inductive exn : Type :=
| AttributeError   (* a method called on [None] *)
| TypeError        (* [None] iterated or compared *)
| ValueError.      (* raised by [get_all_results] on an unknown mode *)

Inductive result (A : Type) : Type :=
| Ok (a : A)
| Raise (e : exn).
Arguments Ok {A} a.
Arguments Raise {A} e.

Definition bind {A B : Type} (m : result A) (k : A -> result B) : result B :=
  match m with
  | Ok a => k a
  | Raise e => Raise e
  end.

Notation "x <- m ;; k" := (bind m (fun x => k))
  (at level 61, m at next level, right associativity).

(** A key of a JSON object. *)
Inductive field (A : Type) : Type :=
| Absent
| Null
| Present (a : A).
Arguments Absent {A}.
Arguments Null {A}.
Arguments Present {A} a.

(** [d.get(k, default)]: [None] is Python's [None]. *)
Definition get_or {A : Type} (f : field A) (default : A) : option A :=
  match f with
  | Absent => Some default
  | Null => None
  | Present a => Some a
  end.

(** [d.get(k)] *)
Definition get {A : Type} (f : field A) : option A :=
  match f with
  | Present a => Some a
  | _ => None
  end.

(** [k in d] *)
Definition has_key {A : Type} (f : field A) : bool :=
  match f with
  | Absent => false
  | _ => true
  end.

(** A value stored in a parsed record or in a cell of the data frame. *)
Inductive value : Type :=
| VNone
| VNaN
| VStr (s : string)
| VBool (b : bool).

Definition value_eqb (a b : value) : bool :=
  match a, b with
  | VNone, VNone => true
  | VNaN, VNaN => true
  | VStr s, VStr t => String.eqb s t
  | VBool x, VBool y => Bool.eqb x y
  | _, _ => false
  end.

Definition of_str (o : option string) : value :=
  match o with
  | Some s => VStr s
  | None => VNone
  end.

Definition of_bool (o : option bool) : value :=
  match o with
  | Some b => VBool b
  | None => VNone
  end.

(** [str(x)] where [x] is an [int] or [None]; [d] is [str] of the default. *)
Definition str_of_int_field (f : field Z) (d : string) : string :=
  match f with
  | Absent => d
  | Null => "None"
  | Present z => PyStr.str_of_Z z
  end.

(** *** The raw work of the remote API *)

Record Author : Type := { author_display_name : field string }.
Record Authorship : Type := { authorship_author : field Author }.
Record Source : Type := { source_display_name : field string }.
Record Location : Type := { location_source : field Source }.
Record OpenAccess : Type := { open_access_is_oa : field bool }.

(** word -> positions, in the insertion order of the dict. *)
Definition InvertedIndex : Type := list (string * list Z).

Record Work : Type := {
  work_id : field string;
  work_display_name : field string;
  work_publication_year : field Z;
  work_primary_location : field Location;
  work_authorships : field (list Authorship);
  work_abstract_inverted_index : field InvertedIndex;
  work_cited_by_count : field Z;
  work_doi : field string;
  work_open_access : field OpenAccess
}.

Record Meta : Type := { meta_count : field Z }.

(** The dict returned by a page fetch. *)
Record Page : Type := {
  page_error : field string;
  page_results : field (list Work);
  page_meta : field Meta
}.

(** The empty dict [{}] at each record type. *)
Definition empty_author : Author := {| author_display_name := Absent |}.
Definition empty_source : Source := {| source_display_name := Absent |}.
Definition empty_location : Location := {| location_source := Absent |}.
Definition empty_open_access : OpenAccess := {| open_access_is_oa := Absent |}.
Definition empty_meta : Meta := {| meta_count := Absent |}.

(** *** The parsed record *)

Record ParsedRecord : Type := {
  title : value;
  author : value;
  publication : value;
  year : value;
  doi : value;
  abstract : value;
  citations : value;
  openalex_id : value;
  open_access : value;
  search_query : value;
  search_date : value;
  source : value
}.

(** ** Abstract reconstructor *)

Definition pos_word : Type := (Z * string)%type.

(** [list.sort(key=lambda x: x[0])]: the stable sort by position.  [insert_by_position]
    places an element before the first one whose position is not smaller,
    so an element keeps its place before later elements of equal position. *)
Fixpoint insert_by_position (x : pos_word) (l : list pos_word) : list pos_word :=
  match l with
  | [] => [x]
  | y :: l' => if (fst x <=? fst y)%Z then x :: l else y :: insert_by_position x l'
  end.

Fixpoint sort_by_position (l : list pos_word) : list pos_word :=
  match l with
  | [] => []
  | x :: l' => insert_by_position x (sort_by_position l')
  end.

(** The nested [for] loops appending to [word_positions]. *)
Definition append_positions (word : string)
  (word_positions : list pos_word) (positions : list Z) : list pos_word :=
  fold_left (fun acc pos => acc ++ [(pos, word)]) positions word_positions.

Definition collect_word_positions (inverted_index : InvertedIndex)
  : list pos_word :=
  fold_left (fun acc item => append_positions (fst item) acc (snd item))
            inverted_index [].

Definition ellipsis : string := "...".

Definition _convert_inverted_abstract (inverted_index : option InvertedIndex)
  : string :=
  match inverted_index with
  | None | Some [] => EmptyString
  | Some index =>
      let word_positions := sort_by_position (collect_word_positions index) in
      let abstract := PyStr.join " " (map snd word_positions) in
      if (500 <? String.length abstract)%nat
      then (substring 0 500 abstract ++ ellipsis)%string
      else abstract
  end.

(** The flattening in the words of the specification: one (position, word)
    pair per listed position, in the order of the mapping. *)
Definition flatten (inverted_index : InvertedIndex) : list pos_word :=
  flat_map (fun item => map (fun pos => (pos, fst item)) (snd item))
           inverted_index.

Definition by_position (a b : pos_word) : Prop := (fst a <= fst b)%Z.

Definition at_position (p : Z) (x : pos_word) : bool := (fst x =? p)%Z.

(** ** Record parser *)

(** The body of [for auth in work['authorships'][:3]]. *)
Definition author_name (auth : Authorship) : result (option string) :=
  match get_or (authorship_author auth) empty_author with
  | None => Raise AttributeError
  | Some a => Ok (get_or (author_display_name a) EmptyString)
  end.

Fixpoint collect_authors (auths : list Authorship) (authors : list string)
  : result (list string) :=
  match auths with
  | [] => Ok authors
  | auth :: rest =>
      name <- author_name auth ;;
      match name with
      | Some (String c s) => collect_authors rest (authors ++ [String c s])
      | _ => collect_authors rest authors
      end
  end.

Definition work_authors (work : Work) : result (list string) :=
  match get (work_authorships work) with
  | Some (a :: l) => collect_authors (firstn 3 (a :: l)) []
  | _ => Ok []
  end.

(** [d.get(k, {}) or {}] *)
Definition get_or_empty {A : Type} (f : field A) (empty : A) : A :=
  match get_or f empty with
  | Some a => a
  | None => empty
  end.

Definition openalex_prefix : string := "https://openalex.org/".
Definition provider : string := "OpenAlex".

Definition parse_work (query search_date : string) (work : Work)
  : result ParsedRecord :=
  authors <- work_authors work ;;
  let primary_location :=
    get_or_empty (work_primary_location work) empty_location in
  let source_info :=
    get_or_empty (location_source primary_location) empty_source in
  let abstract_text :=
    _convert_inverted_abstract
      (get_or (work_abstract_inverted_index work) []) in
  id <- match get_or (work_id work) EmptyString with
        | Some s => Ok (PyStr.remove_all openalex_prefix s)
        | None => Raise AttributeError
        end ;;
  oa <- match get_or (work_open_access work) empty_open_access with
        | Some o => Ok (get_or (open_access_is_oa o) false)
        | None => Raise AttributeError
        end ;;
  Ok {| title := of_str (get_or (work_display_name work) EmptyString);
        author := VStr (match authors with
                        | [] => EmptyString
                        | _ => PyStr.join "; " authors
                        end);
        publication :=
          of_str (get_or (source_display_name source_info) EmptyString);
        year := VStr (str_of_int_field (work_publication_year work)
                                       EmptyString);
        doi := of_str (get_or (work_doi work) EmptyString);
        abstract := VStr abstract_text;
        citations := VStr (str_of_int_field (work_cited_by_count work) "0");
        openalex_id := VStr id;
        open_access := of_bool oa;
        search_query := VStr query;
        search_date := VStr search_date;
        source := VStr provider |}.

(** The [for work in search_results['results']] loop. *)
Fixpoint parse_works (query search_date : string) (works : list Work)
  (parsed_results : list ParsedRecord) : result (list ParsedRecord) :=
  match works with
  | [] => Ok parsed_results
  | work :: rest =>
      r <- parse_work query search_date work ;;
      parse_works query search_date rest (parsed_results ++ [r])
  end.

Definition parse_results (search_results : Page) (query search_date : string)
  : result (list ParsedRecord) :=
  if has_key (page_error search_results) then Ok []
  else if negb (has_key (page_results search_results)) then Ok []
  else match page_results search_results with
       | Present works => parse_works query search_date works []
       | _ => Raise TypeError
       end.

(** The authorship list of a work, empty when the key is absent or null. *)
Definition authorships_of (work : Work) : list Authorship :=
  match work_authorships work with
  | Present l => l
  | _ => []
  end.

(** The display name of an authorship, empty when it has none. *)
Definition display_name_of (auth : Authorship) : string :=
  match authorship_author auth with
  | Present a =>
      match author_display_name a with
      | Present s => s
      | _ => EmptyString
      end
  | _ => EmptyString
  end.

(** The primary location, or the source nested in it, is absent or null. *)
Definition lacks_source (work : Work) : bool :=
  match work_primary_location work with
  | Absent | Null => true
  | Present location =>
      match location_source location with
      | Absent | Null => true
      | Present _ => false
      end
  end.

(** A work with five authorships and a null primary location. *)
Definition example_author (name : string) : Authorship :=
  {| authorship_author :=
       Present {| author_display_name := Present name |} |}.

Definition example_work : Work :=
  {| work_id := Present "https://openalex.org/W1";
     work_display_name := Present "A title";
     work_publication_year := Present 2020%Z;
     work_primary_location := Null;
     work_authorships :=
       Present [example_author "Ana"; example_author "Luis";
                example_author "Eva"; example_author "Juan";
                example_author "Sol"];
     work_abstract_inverted_index := Null;
     work_cited_by_count := Present 7%Z;
     work_doi := Present "https://doi.org/10.1/x";
     work_open_access :=
       Present {| open_access_is_oa := Present true |} |}.

(** ** Page fetchers *)

(** The [params] of one GET on the works endpoint; a key that the fetcher
    does not send is [None]. *)
Record Request : Type := {
  req_filter : option string;
  req_search : option string;
  req_per_page : Z;
  req_page : option Z;
  req_sort : option string;
  req_select : string
}.

Definition select_fields : string :=
  "id,display_name,publication_year,primary_location,authorships,abstract_inverted_index,cited_by_count,doi,open_access".

(** Exceptions of the [requests.exceptions.RequestException] family. *)
Inductive RequestException : Type :=
| Timeout
| ConnectionError
| HTTPError (status : Z).

(** What the body of the [try] block does: [session.get],
    [raise_for_status] and [response.json()]. *)
Inductive Response : Type :=
| Json (body : Page)
| RequestFailed (e : RequestException) (message : string)
| OtherFailure (e : exn).

(** The remote side: the answer to the [n]-th request of the session. *)
Definition Network : Type := nat -> Request -> Response.

Definition error_page (message : string) : Page :=
  {| page_error := Present ("Error en la solicitud: " ++ message)%string;
     page_results := Absent;
     page_meta := Absent |}.

(** [try: ... except requests.exceptions.RequestException as e: ...]
    The request is appended to the log of the session. *)
Definition try_get (net : Network) (log : list Request) (params : Request)
  : result Page * list Request :=
  (match net (List.length log) params with
   | Json body => Ok body
   | RequestFailed _ message => Ok (error_page message)
   | OtherFailure e => Raise e
   end, log ++ [params]).

Definition search_title_abstract (net : Network) (log : list Request)
  (query : string) (per_page page : Z) (sort : string)
  : result Page * list Request :=
  let formatted_query := _format_query_for_openalex query in
  try_get net log
    {| req_filter := Some ("title_and_abstract.search:" ++ formatted_query)%string;
       req_search := None;
       req_per_page := Z.min per_page 200;
       req_page := Some page;
       req_sort := Some sort;
       req_select := select_fields |}.

Definition search_general (net : Network) (log : list Request)
  (query : string) (per_page page : Z) : result Page * list Request :=
  let formatted_query := _format_query_for_openalex query in
  try_get net log
    {| req_filter := None;
       req_search := Some formatted_query;
       req_per_page := Z.min per_page 200;
       req_page := Some page;
       req_sort := None;
       req_select := select_fields |}.

Definition search_title_only (net : Network) (log : list Request)
  (query : string) (per_page : Z) : result Page * list Request :=
  let formatted_query := _format_query_for_openalex query in
  try_get net log
    {| req_filter := Some ("title.search:" ++ formatted_query)%string;
       req_search := None;
       req_per_page := Z.min per_page 200;
       req_page := None;
       req_sort := None;
       req_select := select_fields |}.

(** ** Paginated retriever *)

(** [l[:n]] *)
Definition slice_upto {A : Type} (n : Z) (l : list A) : list A :=
  if (n <? 0)%Z
  then firstn (List.length l - Z.to_nat (- n)) l
  else firstn (Z.to_nat n) l.

(** How a call ends. *)
Inductive Outcome (A : Type) : Type :=
| Returned (a : A)
| Raised (e : exn)
| OutOfFuel.
Arguments Returned {A} a.
Arguments Raised {A} e.
Arguments OutOfFuel {A}.

(** [batch.get('meta', {}).get('count', 0)] and the [min] printed with it. *)
Definition progress_total (max_results : Z) (batch : Page) : result Z :=
  match get_or (page_meta batch) empty_meta with
  | None => Raise AttributeError
  | Some meta =>
      match get_or (meta_count meta) 0%Z with
      | None => Raise TypeError
      | Some total_available => Ok (Z.min max_results total_available)
      end
  end.

(** [not batch.get('results')] *)
Definition no_results (batch : Page) : bool :=
  match get (page_results batch) with
  | Some (_ :: _) => false
  | _ => true
  end.

Definition default_sort : string := "relevance_score:desc".

Section Retrieval.

Variable net : Network.
(** [datetime.now()] formatted, at the [n]-th fetch. *)
Variable now : nat -> string.
Variable query : string.
Variable max_results : Z.
Variable search_type : string.

Definition per_page : Z := 200.

(** The mode dispatch at the head of the loop body. *)
Definition fetch (log : list Request) (page : Z)
  : option (result Page * list Request) :=
  if String.eqb search_type "title_abstract"
  then Some (search_title_abstract net log query per_page page default_sort)
  else if String.eqb search_type "general"
  then Some (search_general net log query per_page page)
  else if String.eqb search_type "title_only"
  then Some (search_title_only net log query per_page)
  else None.

(** The [while len(all_results) < max_results] loop followed by the final
    [return all_results[:max_results]].  The second component is the log
    of the requests sent. *)
Fixpoint while_loop (fuel : nat) (all_results : list ParsedRecord)
  (page : Z) (log : list Request)
  : Outcome (list ParsedRecord) * list Request :=
  match fuel with
  | O => (OutOfFuel, log)
  | S fuel' =>
      if (Z.of_nat (List.length all_results) <? max_results)%Z then
        match fetch log page with
        | None => (Raised ValueError, log)
        | Some (Raise e, log') => (Raised e, log')
        | Some (Ok batch, log') =>
            if has_key (page_error batch)
            then (Returned (slice_upto max_results all_results), log')
            else if no_results batch
            then (Returned (slice_upto max_results all_results), log')
            else
              match parse_results batch query (now (List.length log)) with
              | Raise e => (Raised e, log')
              | Ok parsed_batch =>
                  let all_results' := all_results ++ parsed_batch in
                  match progress_total max_results batch with
                  | Raise e => (Raised e, log')
                  | Ok _ =>
                      if (Z.of_nat (List.length parsed_batch) <? per_page)%Z
                      then (Returned (slice_upto max_results all_results'),
                            log')
                      else while_loop fuel' all_results' (page + 1)%Z log'
                  end
              end
        end
      else (Returned (slice_upto max_results all_results), log)
  end.

(** Every pass that continues adds a full page, so [max_results] passes
    and one more test of the loop condition are enough. *)
Definition get_all_results
  : Outcome (list ParsedRecord) * list Request :=
  while_loop (S (Z.to_nat max_results)) [] 1%Z [].

End Retrieval.

(** The three modes of the retriever. *)
Definition valid_mode (search_type : string) : Prop :=
  search_type = "title_abstract" \/ search_type = "general" \/
  search_type = "title_only".

(** A page of [n] works, and remote sides used as examples. *)
Definition page_of (n : nat) : Page :=
  {| page_error := Absent;
     page_results := Present (repeat example_work n);
     page_meta := Present {| meta_count := Present 1000%Z |} |}.

Definition net_full : Network := fun _ _ => Json (page_of 200).

Definition net_250 : Network :=
  fun n _ =>
    match n with
    | O => Json (page_of 200)
    | S O => Json (page_of 50)
    | _ => Json (page_of 0)
    end.

Definition net_150 : Network := fun _ _ => Json (page_of 150).

Definition net_timeout_second : Network :=
  fun n _ =>
    match n with
    | O => Json (page_of 200)
    | _ => RequestFailed Timeout "Read timed out."
    end.

Definition net_down : Network :=
  fun _ _ => RequestFailed ConnectionError "Connection refused".

Definition noon : nat -> string := fun _ => "2025-01-01 12:00:00".

(** Every answer of the remote side is a failure of the request family or
    a page that the loop body handles without raising. *)
Definition net_well_formed (net : Network) (now : nat -> string)
  (query : string) (max_results : Z) : Prop :=
  forall n params,
    match net n params with
    | OtherFailure _ => False
    | RequestFailed _ _ => True
    | Json body =>
        has_key (page_error body) = false ->
        no_results body = false ->
        (exists parsed, parse_results body query (now n) = Ok parsed) /\
        (exists total, progress_total max_results body = Ok total)
    end.

(** ** Consolidator *)

(** The CSV file on disk: missing, not parseable, or a table of rows. *)
Inductive CsvFile : Type :=
| NoFile
| Unreadable
| Table (rows : list ParsedRecord).

Inductive FileOp : Type :=
| ReadCsv
| ToCsv (rows : list ParsedRecord).

(** The strings that [pd.read_csv] reads as a missing value.  [to_csv]
    writes [None] and [NaN] as the empty field. *)
Definition na_values : list string :=
  [EmptyString; "#N/A"; "#N/A N/A"; "#NA"; "-1.#IND"; "-1.#QNAN"; "-NaN";
   "-nan"; "1.#IND"; "1.#QNAN"; "<NA>"; "N/A"; "NA"; "NULL"; "NaN"; "None";
   "n/a"; "nan"; "null"].

(** A cell written by [to_csv] and read back by [read_csv]: a missing
    value and a string of [na_values] come back as [NaN], any other
    string as itself.  The type inference of [read_csv] is left out: a
    column whose cells all read as numbers or as booleans comes back
    typed (the title 007 as the integer 7), which this function does not
    follow. *)
Definition read_cell (v : value) : value :=
  match v with
  | VNone | VNaN => VNaN
  | VStr s => if existsb (String.eqb s) na_values then VNaN else VStr s
  | VBool b => VBool b
  end.

Definition read_row (r : ParsedRecord) : ParsedRecord :=
  {| title := read_cell (title r);
     author := read_cell (author r);
     publication := read_cell (publication r);
     year := read_cell (year r);
     doi := read_cell (doi r);
     abstract := read_cell (abstract r);
     citations := read_cell (citations r);
     openalex_id := read_cell (openalex_id r);
     open_access := read_cell (open_access r);
     search_query := read_cell (search_query r);
     search_date := read_cell (search_date r);
     source := read_cell (source r) |}.

(** [existing_df] after the [try: pd.read_csv ... except] block. *)
Definition read_csv (csv : CsvFile) : list ParsedRecord :=
  match csv with
  | Table rows => map read_row rows
  | NoFile | Unreadable => []
  end.

(** [pd.isna] *)
Definition isna (v : value) : bool :=
  match v with
  | VNone | VNaN => true
  | _ => false
  end.

(** [astype(str)] on one cell. *)
Definition astype_str (v : value) : string :=
  match v with
  | VNone => "None"
  | VNaN => "nan"
  | VStr s => s
  | VBool true => "True"
  | VBool false => "False"
  end.

(** [combined_df['doi'].fillna('NO_DOI_' + combined_df['title'].astype(str))] *)
Definition dedup_key (r : ParsedRecord) : value :=
  if isna (doi r)
  then VStr ("NO_DOI_" ++ astype_str (title r))%string
  else doi r.

(** [drop_duplicates(subset=['dedup_key'], keep='last')] *)
Fixpoint drop_duplicates_last (rows : list ParsedRecord)
  : list ParsedRecord :=
  match rows with
  | [] => []
  | r :: rest =>
      if existsb (fun r' => value_eqb (dedup_key r') (dedup_key r)) rest
      then drop_duplicates_last rest
      else r :: drop_duplicates_last rest
  end.

(** Lines 336-357: the rows to write and [duplicates_removed]. *)
Definition consolidate (existing_df new_df : list ParsedRecord)
  : list ParsedRecord * Z :=
  let combined_df :=
    match existing_df with
    | _ :: _ => existing_df ++ new_df
    | [] => new_df
    end in
  let initial_count := Z.of_nat (List.length combined_df) in
  let combined_df := drop_duplicates_last combined_df in
  let final_count := Z.of_nat (List.length combined_df) in
  (combined_df, (initial_count - final_count)%Z).

Record Stats : Type := {
  message : string;
  new_records : Z;
  total_records : Z;
  duplicates_removed : option Z;
  stats_source : option string
}.

(** [save_to_csv] from line 319 on: the returned dict, the file afterwards
    and the file operations performed. *)
Definition merge_and_persist (csv_filename : string) (csv : CsvFile)
  (new_results : list ParsedRecord) : Stats * CsvFile * list FileOp :=
  match new_results with
  | [] =>
      ({| message := "No se encontraron resultados nuevos";
          new_records := 0;
          total_records := 0;
          duplicates_removed := None;
          stats_source := None |}, csv, [])
  | _ :: _ =>
      let existing_df := read_csv csv in
      let '(combined_df, removed) := consolidate existing_df new_results in
      ({| message :=
            ("Búsqueda completada y guardada en " ++ csv_filename)%string;
          new_records := Z.of_nat (List.length new_results);
          total_records := Z.of_nat (List.length combined_df);
          duplicates_removed := Some removed;
          stats_source := Some provider |},
       Table combined_df,
       [ReadCsv; ToCsv combined_df])
  end.

Definition save_to_csv (net : Network) (now : nat -> string)
  (csv : CsvFile) (query csv_filename : string) (max_results : Z)
  (search_type : string)
  : Outcome Stats * CsvFile * list FileOp * list Request :=
  match get_all_results net now query max_results search_type with
  | (Returned new_results, log) =>
      let '(stats, csv', ops) :=
        merge_and_persist csv_filename csv new_results in
      (Returned stats, csv', ops, log)
  | (Raised e, log) => (Raised e, csv, [], log)
  | (OutOfFuel, log) => (OutOfFuel, csv, [], log)
  end.

(** The dedup key in the words of the specification: the DOI if it is
    non-empty, otherwise the prefix followed by the title. *)
Definition spec_dedup_key (r : ParsedRecord) : string :=
  match doi r with
  | VStr (String c s) => String c s
  | _ => ("NO_DOI_" ++ astype_str (title r))%string
  end.

(** A work of the remote API that carries no [doi] key. *)
Definition work_without_doi (name : string) : Work :=
  {| work_id := Present ("https://openalex.org/W" ++ name)%string;
     work_display_name := Present name;
     work_publication_year := Present 2021%Z;
     work_primary_location := Null;
     work_authorships := Present [example_author "Ana"];
     work_abstract_inverted_index := Null;
     work_cited_by_count := Present 0%Z;
     work_doi := Absent;
     work_open_access := Present {| open_access_is_oa := Present false |} |}.

Definition net_of (works : list Work) : Network :=
  fun _ _ =>
    Json {| page_error := Absent;
            page_results := Present works;
            page_meta := Present {| meta_count := Present 2%Z |} |}.

(** A row of the persisted collection. *)
Definition example_record : ParsedRecord :=
  {| title := VStr "A title";
     author := VStr "Ana; Luis; Eva";
     publication := VNaN;
     year := VStr "2020";
     doi := VStr "https://doi.org/10.1/x";
     abstract := VNaN;
     citations := VStr "7";
     openalex_id := VStr "W1";
     open_access := VBool true;
     search_query := VStr "q";
     search_date := VStr "2025-01-01 12:00:00";
     source := VStr "OpenAlex" |}.

(** The string holds no comma. *)
Definition no_comma (s : string) : Prop := PyStr.contains "," s = false.

(** The (position, word) pairs of a text: its words numbered from 0. *)
Definition text_pairs (words : list string) : list pos_word :=
  combine (map Z.of_nat (seq 0 (List.length words))) words.

Definition before_position (a b : pos_word) : Prop := (fst a < fst b)%Z.

(** The value is a string, of at most [n] characters. *)
Definition is_str (v : value) : Prop := exists s, v = VStr s.

Definition is_short_str (n : nat) (v : value) : Prop :=
  exists s, v = VStr s /\ (String.length s <= n)%nat.

(** No author of the first three authorships is null, nor the identifier,
    nor the open-access block. *)
Definition parses (work : Work) : Prop :=
  Forall (fun auth => authorship_author auth <> Null)
         (firstn 3 (authorships_of work)) /\
  work_id work <> Null /\
  work_open_access work <> Null.

(** The request that a mode sends for a query: page size 200, the fixed
    projection, and the normalised query in the filter or search key of
    the mode. *)
Definition shaped (search_type query : string) (r : Request) : Prop :=
  req_per_page r = 200%Z /\
  req_select r = select_fields /\
  (search_type = "title_abstract" ->
   req_filter r =
     Some ("title_and_abstract.search:"
           ++ _format_query_for_openalex query)%string /\
   req_search r = None /\ req_sort r = Some "relevance_score:desc") /\
  (search_type = "general" ->
   req_filter r = None /\
   req_search r = Some (_format_query_for_openalex query) /\
   req_sort r = None) /\
  (search_type = "title_only" ->
   req_filter r =
     Some ("title.search:" ++ _format_query_for_openalex query)%string /\
   req_search r = None /\ req_sort r = None).

(** ** Entry point *)

(** [main()]: the query typed by the user; [None] when it is blank and the
    function returns before searching. *)
Definition main (input : string) (net : Network) (now : nat -> string)
  (csv : CsvFile)
  : option (Outcome Stats) * CsvFile * list FileOp * list Request :=
  let query := PyStr.strip input in
  if negb (PyStr.truthy query) then (None, csv, [], [])
  else
    let '(result, csv', ops, log) :=
      save_to_csv net now csv query "openalex_results.csv" 1000
                  "title_abstract" in
    (Some result, csv', ops, log).

(** A full first page, then a page whose results are the empty list. *)
Definition net_200_then_empty : Network :=
  fun n _ =>
    match n with
    | O => Json (page_of 200)
    | _ => Json (page_of 0)
    end.

(** The row [example_record] as the remote side serves it later, under the
    same DOI with another title and citation count. *)
Definition updated_record : ParsedRecord :=
  {| title := VStr "A title, revised";
     author := VStr "Ana; Luis; Eva";
     publication := VStr "A journal";
     year := VStr "2021";
     doi := VStr "https://doi.org/10.1/x";
     abstract := VStr EmptyString;
     citations := VStr "9";
     openalex_id := VStr "W1";
     open_access := VBool true;
     search_query := VStr "q";
     search_date := VStr "2025-02-01 12:00:00";
     source := VStr "OpenAlex" |}.

(** A work whose [open_access] is present and null, and the pages that
    carry it or a null [results]. *)
Definition work_null_open_access : Work :=
  {| work_id := Present "https://openalex.org/W1";
     work_display_name := Present "A title";
     work_publication_year := Present 2020%Z;
     work_primary_location := Null;
     work_authorships := Present [example_author "Ana"];
     work_abstract_inverted_index := Null;
     work_cited_by_count := Present 7%Z;
     work_doi := Present "https://doi.org/10.1/x";
     work_open_access := Null |}.

Definition work_null_id : Work :=
  {| work_id := Null;
     work_display_name := Present "A title";
     work_publication_year := Present 2020%Z;
     work_primary_location := Null;
     work_authorships := Present [example_author "Ana"];
     work_abstract_inverted_index := Null;
     work_cited_by_count := Present 7%Z;
     work_doi := Present "https://doi.org/10.1/x";
     work_open_access := Absent |}.

Definition page_with (works : field (list Work)) : Page :=
  {| page_error := Absent;
     page_results := works;
     page_meta := Present {| meta_count := Present 1%Z |} |}.

(** * Properties *)

(** ** Query normaliser *)

Section Normaliser.

Lemma lstrip_head (s : string) :
  PyStr.lstrip s = EmptyString \/
  exists c r, PyStr.lstrip s = String c r /\ PyStr.is_space c = false.
Proof.
  induction s as [|c s IH]; simpl.
  - now left.
  - destruct (PyStr.is_space c) eqn:E; [exact IH|].
    right. now exists c, s.
Qed.

Lemma rstrip_head (c : ascii) (s : string) :
  PyStr.is_space c = false ->
  exists r, PyStr.rstrip (String c s) = String c r.
Proof.
  intros Hc. simpl. destruct (PyStr.rstrip s) eqn:E.
  - rewrite Hc. now exists EmptyString.
  - now eexists.
Qed.

Lemma rstrip_idempotent (s : string) :
  PyStr.rstrip (PyStr.rstrip s) = PyStr.rstrip s.
Proof.
  induction s as [|c s IH]; simpl; [reflexivity|].
  destruct (PyStr.rstrip s) as [|d r] eqn:E.
  - destruct (PyStr.is_space c) eqn:Hc; simpl; [reflexivity|].
    now rewrite Hc.
  - change (PyStr.rstrip (String c (String d r)))
      with (match PyStr.rstrip (String d r) with
            | EmptyString =>
                if PyStr.is_space c then EmptyString
                else String c EmptyString
            | String a b => String c (String a b)
            end).
    now rewrite IH.
Qed.

Lemma strip_idempotent (s : string) :
  PyStr.strip (PyStr.strip s) = PyStr.strip s.
Proof.
  unfold PyStr.strip.
  destruct (lstrip_head s) as [E | (c & r & E & Hc)]; rewrite E.
  - reflexivity.
  - destruct (rstrip_head c r Hc) as [r' E'].
    rewrite E'. simpl PyStr.lstrip. rewrite Hc.
    rewrite <- E'. apply rstrip_idempotent.
Qed.

Lemma format_term_loop (terms acc : list string) :
  fold_left format_term terms acc =
  acc ++ map quote_if_needed
             (filter PyStr.truthy (map PyStr.strip terms)).
Proof.
  revert acc. induction terms as [|t terms IH]; intros acc; simpl.
  - now rewrite app_nil_r.
  - rewrite IH. unfold format_term, quote_if_needed.
    destruct (PyStr.truthy (PyStr.strip t)) eqn:Ht; simpl.
    + destruct (negb (PyStr.startswith (PyStr.strip t) quote &&
                      PyStr.endswith (PyStr.strip t) quote)).
      * destruct (PyStr.contains space (PyStr.strip t));
          now rewrite <- app_assoc.
      * simpl. now rewrite <- app_assoc.
    + reflexivity.
Qed.

Lemma strip_filtered (l : list string) :
  filter PyStr.truthy
    (map PyStr.strip
       (map PyStr.strip
          (filter (fun term => PyStr.truthy (PyStr.strip term)) l))) =
  filter PyStr.truthy (map PyStr.strip l).
Proof.
  induction l as [|t l IH]; simpl; [reflexivity|].
  destruct (PyStr.truthy (PyStr.strip t)) eqn:Ht; simpl.
  - rewrite strip_idempotent, Ht, IH. reflexivity.
  - exact IH.
Qed.

(** X1.  When the query holds a comma and its upper-case form contains
    neither "OR" nor "AND" as a substring, the normaliser returns the
    comma-separated parts, stripped, without the empty ones, each put in
    double quotes when it holds a space and is not already quoted, joined
    by " OR "; every other query is returned unchanged. *)
Lemma format_query_comma_list (query : string) :
  _format_query_for_openalex query =
  if PyStr.contains "," query
     && negb (PyStr.contains "OR" (PyStr.upper query))
     && negb (PyStr.contains "AND" (PyStr.upper query))
  then PyStr.join " OR "
         (map quote_if_needed
              (filter PyStr.truthy
                      (map PyStr.strip (PyStr.split comma query))))
  else query.
Proof.
  unfold _format_query_for_openalex.
  destruct (PyStr.contains "," query
            && negb (PyStr.contains "OR" (PyStr.upper query))
            && negb (PyStr.contains "AND" (PyStr.upper query)));
    [|reflexivity].
  rewrite format_term_loop, strip_filtered. reflexivity.
Qed.

Example format_query_terms :
  _format_query_for_openalex "a, b, c" = "a OR b OR c".
Proof. reflexivity. Qed.

Example format_query_phrases :
  _format_query_for_openalex "a b, c d" =
  (quote ++ "a b" ++ quote ++ " OR " ++ quote ++ "c d" ++ quote)%string.
Proof. reflexivity. Qed.

Example format_query_operator :
  _format_query_for_openalex "a AND b, c" = "a AND b, c".
Proof. reflexivity. Qed.

(** C3.  The operator test of the normaliser is a substring test: on
    "historia, memoria", which holds a comma and neither AND nor OR as a
    token, the query is returned unchanged ("HISTORIA" contains "OR"),
    where the comma rule read on whole tokens gives
    "historia OR memoria". *)
Theorem format_query_operator_inside_word :
  _format_query_for_openalex "historia, memoria" = "historia, memoria" /\
  has_token "AND" "historia, memoria" = false /\
  has_token "OR" "historia, memoria" = false /\
  normalize_spec "historia, memoria" = "historia OR memoria".
Proof. repeat split; reflexivity. Qed.

End Normaliser.

(** ** Abstract reconstructor *)

Section Reconstructor.

Lemma append_positions_map (word : string) (positions : list Z)
  (acc : list pos_word) :
  append_positions word acc positions =
  acc ++ map (fun pos => (pos, word)) positions.
Proof.
  unfold append_positions. revert acc.
  induction positions as [|p ps IH]; intros acc; simpl.
  - now rewrite app_nil_r.
  - rewrite IH, <- app_assoc. reflexivity.
Qed.

Lemma collect_word_positions_flatten (inverted_index : InvertedIndex) :
  collect_word_positions inverted_index = flatten inverted_index.
Proof.
  unfold collect_word_positions.
  enough (H : forall acc,
             fold_left
               (fun acc item => append_positions (fst item) acc (snd item))
               inverted_index acc = acc ++ flatten inverted_index)
    by apply (H []).
  induction inverted_index as [|item idx IH]; intros acc; simpl.
  - now rewrite app_nil_r.
  - rewrite IH, append_positions_map, <- app_assoc. reflexivity.
Qed.

Lemma flatten_length (inverted_index : InvertedIndex) :
  List.length (flatten inverted_index) =
  list_sum (map (fun item => List.length (snd item)) inverted_index).
Proof.
  unfold flatten.
  induction inverted_index as [|item idx IH]; simpl; [reflexivity|].
  rewrite length_app, length_map. f_equal. exact IH.
Qed.

Lemma insert_by_position_perm (x : pos_word) (l : list pos_word) :
  Permutation (insert_by_position x l) (x :: l).
Proof.
  induction l as [|y l IH]; simpl; [reflexivity|].
  destruct (fst x <=? fst y)%Z; [reflexivity|].
  rewrite IH. apply perm_swap.
Qed.

Lemma sort_by_position_perm (l : list pos_word) :
  Permutation (sort_by_position l) l.
Proof.
  induction l as [|x l IH]; simpl; [reflexivity|].
  rewrite insert_by_position_perm. now constructor.
Qed.

Lemma insert_by_position_sorted (x : pos_word) (l : list pos_word) :
  Sorted by_position l -> Sorted by_position (insert_by_position x l).
Proof.
  induction l as [|y l IH]; intros Hs; simpl.
  - repeat constructor.
  - destruct (fst x <=? fst y)%Z eqn:E.
    + constructor; [assumption|]. constructor.
      unfold by_position. lia.
    + inversion Hs as [|? ? Hl Hhd]; subst.
      constructor; [now apply IH|].
      destruct l as [|z l]; simpl.
      * constructor. unfold by_position. lia.
      * destruct (fst x <=? fst z)%Z.
        -- constructor. unfold by_position. lia.
        -- constructor. now inversion Hhd.
Qed.

Lemma sort_by_position_sorted (l : list pos_word) :
  Sorted by_position (sort_by_position l).
Proof.
  induction l as [|x l IH]; simpl; [constructor|].
  now apply insert_by_position_sorted.
Qed.

(** Stability: the elements at one position keep their relative order. *)
Lemma insert_by_position_stable (p : Z) (x : pos_word)
  (l : list pos_word) :
  filter (at_position p) (insert_by_position x l) =
  filter (at_position p) (x :: l).
Proof.
  induction l as [|y l IH]; [reflexivity|].
  simpl insert_by_position.
  destruct (fst x <=? fst y)%Z eqn:E; [reflexivity|].
  simpl in *. rewrite IH. unfold at_position.
  destruct (fst x =? p)%Z eqn:Ex; [|reflexivity].
  destruct (fst y =? p)%Z eqn:Ey; [lia|reflexivity].
Qed.

Lemma sort_by_position_stable (p : Z) (l : list pos_word) :
  filter (at_position p) (sort_by_position l) = filter (at_position p) l.
Proof.
  induction l as [|x l IH]; [reflexivity|].
  simpl sort_by_position. rewrite insert_by_position_stable.
  simpl. now rewrite IH.
Qed.

Lemma substring_prefix_length (n : nat) (s : string) :
  (n <= String.length s)%nat -> String.length (substring 0 n s) = n.
Proof.
  revert s. induction n as [|n IH]; intros s Hn.
  - now destruct s.
  - destruct s as [|c s]; simpl in *; [lia|].
    rewrite IH; [reflexivity|lia].
Qed.

Lemma string_length_app (s t : string) :
  String.length (s ++ t) = (String.length s + String.length t)%nat.
Proof.
  induction s as [|c s IH]; simpl; [reflexivity|]. now rewrite IH.
Qed.

(** C4.  The reconstructor flattens the mapping into one (position, word)
    pair per listed position, sorts the pairs by position with a stable
    sort, joins the words with single spaces, and keeps the first 500
    characters followed by "..." when the text is longer than 500
    characters; the empty mapping gives the empty string and
    {"hello": [1], "world": [0]} gives "world hello". *)
Theorem convert_inverted_abstract_spec (inverted_index : InvertedIndex) :
  (exists word_positions : list pos_word,
      Permutation word_positions (flatten inverted_index) /\
      Sorted by_position word_positions /\
      (forall p : Z,
          filter (at_position p) word_positions =
          filter (at_position p) (flatten inverted_index)) /\
      let joined := PyStr.join " " (map snd word_positions) in
      _convert_inverted_abstract (Some inverted_index) =
        (if (500 <? String.length joined)%nat
         then (substring 0 500 joined ++ "...")%string
         else joined) /\
      String.length (_convert_inverted_abstract (Some inverted_index)) =
        (if (500 <? String.length joined)%nat
         then 503%nat
         else String.length joined)) /\
  _convert_inverted_abstract (Some []) = EmptyString /\
  _convert_inverted_abstract (Some [("hello", [1%Z]); ("world", [0%Z])]) =
    "world hello".
Proof.
  split; [|split; reflexivity].
  exists (sort_by_position (flatten inverted_index)).
  split; [apply sort_by_position_perm|].
  split; [apply sort_by_position_sorted|].
  split; [intros p; apply sort_by_position_stable|].
  assert (E : _convert_inverted_abstract (Some inverted_index) =
              let joined :=
                PyStr.join " "
                  (map snd (sort_by_position (flatten inverted_index))) in
              if (500 <? String.length joined)%nat
              then (substring 0 500 joined ++ "...")%string
              else joined).
  { destruct inverted_index as [|item idx]; [reflexivity|].
    unfold _convert_inverted_abstract.
    rewrite collect_word_positions_flatten. reflexivity. }
  cbv zeta in *. split; [exact E|].
  rewrite E.
  destruct (500 <? _)%nat eqn:Hlen; [|reflexivity].
  apply Nat.ltb_lt in Hlen.
  rewrite string_length_app, substring_prefix_length by lia.
  reflexivity.
Qed.

End Reconstructor.

(** ** Record parser *)

Section Parser.

Variables query search_date : string.

Lemma collect_authors_names (auths : list Authorship) :
  forall authors names,
    collect_authors auths authors = Ok names ->
    names = authors ++ filter PyStr.truthy (map display_name_of auths).
Proof.
  induction auths as [|auth rest IH]; intros authors names H; simpl in *.
  - injection H as <-. now rewrite app_nil_r.
  - unfold author_name, display_name_of in *.
    destruct (authorship_author auth) as [| |a]; simpl in *;
      [now apply IH|discriminate|].
    destruct (author_display_name a) as [| |[|c s]]; simpl in *;
      try now apply IH.
    apply IH in H. now rewrite <- app_assoc in H.
Qed.

Lemma collect_authors_total (auths : list Authorship) :
  Forall (fun auth => authorship_author auth <> Null) auths ->
  forall authors, exists names, collect_authors auths authors = Ok names.
Proof.
  induction 1 as [|auth rest Hauth _ IH]; intros authors; simpl.
  - now eexists.
  - unfold author_name.
    destruct (authorship_author auth) as [| |a]; simpl;
      [apply IH|contradiction|].
    destruct (author_display_name a) as [| |[|c s]]; simpl; apply IH.
Qed.

Lemma work_authors_names (work : Work) (authors : list string) :
  work_authors work = Ok authors ->
  authors =
  filter PyStr.truthy (map display_name_of (firstn 3 (authorships_of work))).
Proof.
  unfold work_authors, authorships_of.
  destruct (work_authorships work) as [| |[|a l]]; simpl get;
    try (intros H; injection H as <-; reflexivity).
  intros H. now apply collect_authors_names in H.
Qed.

(** The parser raises only on a null author among the first three
    authorships, a null identifier or a null open-access block. *)
Lemma parse_work_total (work : Work) :
  Forall (fun auth => authorship_author auth <> Null)
         (firstn 3 (authorships_of work)) ->
  work_id work <> Null ->
  work_open_access work <> Null ->
  exists r, parse_work query search_date work = Ok r.
Proof.
  intros Hauth Hid Hoa. unfold parse_work.
  assert (Ha : exists authors, work_authors work = Ok authors).
  { unfold work_authors, authorships_of in *.
    destruct (work_authorships work) as [| |[|a l]]; simpl get;
      try now eexists.
    now apply collect_authors_total. }
  destruct Ha as [authors ->]. simpl.
  destruct (work_id work); [|contradiction|];
    (destruct (work_open_access work); [|contradiction|]);
    simpl; now eexists.
Qed.

Lemma parse_works_length (works : list Work) :
  forall acc rs,
    parse_works query search_date works acc = Ok rs ->
    List.length rs = (List.length acc + List.length works)%nat.
Proof.
  induction works as [|w works IH]; intros acc rs H; simpl in *.
  - injection H as <-. lia.
  - destruct (parse_work query search_date w) as [r|e]; simpl in H;
      [|discriminate].
    apply IH in H. rewrite length_app in H. simpl in H. lia.
Qed.

(** The two early returns and the guarded default: a page with an error
    key, or without a results key, parses to the empty list, returned and
    not raised; a work whose primary location or nested source is absent
    or null gets the empty string as its publication when it parses. *)
Theorem parse_results_defaults (search_results : Page) (work : Work)
  (r : ParsedRecord) :
  (has_key (page_error search_results) = true \/
   has_key (page_results search_results) = false ->
   parse_results search_results query search_date = Ok []) /\
  (lacks_source work = true ->
   parse_work query search_date work = Ok r ->
   publication r = VStr EmptyString).
Proof.
  split.
  - unfold parse_results. intros [-> | ->]; [reflexivity|].
    now destruct (has_key (page_error search_results)).
  - unfold parse_work, lacks_source. intros Hloc H.
    destruct (work_authors work) as [authors|]; simpl in H; [|discriminate].
    destruct (get_or (work_id work) EmptyString); simpl in H;
      [|discriminate].
    destruct (get_or (work_open_access work) empty_open_access);
      simpl in H; [|discriminate].
    injection H as <-. unfold get_or_empty. simpl. revert Hloc.
    destruct (work_primary_location work) as [| |location]; simpl;
      intros Hloc; try reflexivity.
    revert Hloc.
    destruct (location_source location); simpl; intros Hloc;
      try reflexivity; discriminate Hloc.
Qed.

(** C8.  The author field of a parsed record is made of the display names
    of the first three authorships at most, without the empty ones,
    joined by "; "; a work with five authorships keeps the first three
    names only. *)
Theorem parse_work_author (work : Work) (r : ParsedRecord) :
  parse_work query search_date work = Ok r ->
  author r =
    VStr (PyStr.join "; "
            (filter PyStr.truthy
               (map display_name_of (firstn 3 (authorships_of work))))) /\
  (exists r5, parse_work query search_date example_work = Ok r5 /\
              author r5 = VStr "Ana; Luis; Eva").
Proof.
  intros H. split.
  - unfold parse_work in H.
    destruct (work_authors work) as [authors|] eqn:Ha; simpl in H;
      [|discriminate].
    destruct (get_or (work_id work) EmptyString); simpl in H;
      [|discriminate].
    destruct (get_or (work_open_access work) empty_open_access);
      simpl in H; [|discriminate].
    injection H as <-. cbv [author].
    apply work_authors_names in Ha. rewrite <- Ha.
    now destruct authors.
  - eexists. split; reflexivity.
Qed.

End Parser.

Lemma parse_results_defaults_witness :
  (has_key (page_error (error_page "timeout")) = true \/
   has_key (page_results (error_page "timeout")) = false) /\
  parse_results (error_page "timeout") "q" "2025-01-01 00:00:00" = Ok [] /\
  lacks_source example_work = true /\
  (exists r, parse_work "q" "2025-01-01 00:00:00" example_work = Ok r /\
             publication r = VStr EmptyString).
Proof.
  split; [left; reflexivity|].
  split; [apply (parse_results_defaults "q" "2025-01-01 00:00:00"
                   (error_page "timeout") example_work
                   {| title := VNone; author := VNone; publication := VNone;
                      year := VNone; doi := VNone; abstract := VNone;
                      citations := VNone; openalex_id := VNone;
                      open_access := VNone; search_query := VNone;
                      search_date := VNone; source := VNone |});
          left; reflexivity|].
  split; [reflexivity|].
  eexists. split; [reflexivity|].
  eapply (parse_results_defaults "q" "2025-01-01 00:00:00"
            (error_page "timeout") example_work); reflexivity.
Defined.

Lemma parse_work_author_witness :
  exists r, parse_work "q" "2025-01-01 00:00:00" example_work = Ok r /\
            author r = VStr "Ana; Luis; Eva".
Proof.
  eexists. split; [reflexivity|].
  apply (parse_work_author "q" "2025-01-01 00:00:00" example_work).
  reflexivity.
Defined.

(** C7.  The parser does raise: the null primary location of a work is
    guarded ([or {}]) and gives the publication "", but a null
    [open_access] or a null [id] in a work makes [parse_results] raise
    AttributeError, and a page whose [results] is null makes it raise
    TypeError, although such a page passes the test on the results key. *)
Theorem parse_results_raises_on_null (query date : string) :
  parse_results (page_with (Present [work_null_open_access])) query date
    = Raise AttributeError /\
  parse_results (page_with (Present [work_null_id])) query date
    = Raise AttributeError /\
  parse_results (page_with Null) query date = Raise TypeError /\
  has_key (page_results (page_with Null)) = true /\
  (work_primary_location example_work = Null /\
   exists r,
     parse_results (page_with (Present [example_work])) query date
       = Ok [r] /\
     publication r = VStr EmptyString).
Proof.
  repeat split. eexists. split; reflexivity.
Qed.

(** ** Paginated retriever *)

Section Retriever.

Variable net : Network.
Variable now : nat -> string.
Variable query : string.
Variable max_results : Z.
Variable search_type : string.

Abbreviation loop := (while_loop net now query max_results search_type).
Abbreviation fetch_page := (fetch net query search_type).

Lemma slice_upto_all {A : Type} (l : list A) :
  (Z.of_nat (List.length l) <= max_results)%Z ->
  slice_upto max_results l = l.
Proof.
  intros H. unfold slice_upto.
  destruct (max_results <? 0)%Z eqn:E; [lia|].
  apply firstn_all2. lia.
Qed.

Lemma slice_upto_firstn {A : Type} (l : list A) :
  (0 <= max_results)%Z ->
  slice_upto max_results l = firstn (Z.to_nat max_results) l.
Proof.
  intros H. unfold slice_upto.
  destruct (max_results <? 0)%Z eqn:E; [lia|reflexivity].
Qed.

Lemma slice_upto_length {A : Type} (l : list A) :
  (0 <= max_results)%Z ->
  (Z.of_nat (List.length (slice_upto max_results l)) <= max_results)%Z.
Proof.
  intros H. rewrite slice_upto_firstn, length_firstn by assumption. lia.
Qed.

(** *** One pass of the loop *)

Lemma loop_full (fuel : nat) (acc : list ParsedRecord) (page : Z)
  (log : list Request) :
  (max_results <= Z.of_nat (List.length acc))%Z ->
  loop (S fuel) acc page log = (Returned (slice_upto max_results acc), log).
Proof.
  intros H. cbn [while_loop].
  destruct (Z.of_nat (List.length acc) <? max_results)%Z eqn:E;
    [lia|reflexivity].
Qed.

Lemma loop_error (fuel : nat) (acc : list ParsedRecord) (page : Z)
  (log log' : list Request) (batch : Page) :
  (Z.of_nat (List.length acc) < max_results)%Z ->
  fetch_page log page = Some (Ok batch, log') ->
  has_key (page_error batch) = true ->
  loop (S fuel) acc page log = (Returned acc, log').
Proof.
  intros Hlt Hf He. cbn [while_loop].
  apply Z.ltb_lt in Hlt as Hb. rewrite Hb, Hf, He.
  rewrite slice_upto_all by lia. reflexivity.
Qed.

Lemma loop_empty (fuel : nat) (acc : list ParsedRecord) (page : Z)
  (log log' : list Request) (batch : Page) :
  (Z.of_nat (List.length acc) < max_results)%Z ->
  fetch_page log page = Some (Ok batch, log') ->
  has_key (page_error batch) = false ->
  no_results batch = true ->
  loop (S fuel) acc page log = (Returned acc, log').
Proof.
  intros Hlt Hf He Hn. cbn [while_loop].
  apply Z.ltb_lt in Hlt as Hb. rewrite Hb, Hf, He, Hn.
  rewrite slice_upto_all by lia. reflexivity.
Qed.

Lemma loop_short (fuel : nat) (acc parsed : list ParsedRecord) (page : Z)
  (log log' : list Request) (batch : Page) (total : Z) :
  (Z.of_nat (List.length acc) < max_results)%Z ->
  fetch_page log page = Some (Ok batch, log') ->
  has_key (page_error batch) = false ->
  no_results batch = false ->
  parse_results batch query (now (List.length log)) = Ok parsed ->
  progress_total max_results batch = Ok total ->
  (Z.of_nat (List.length parsed) < per_page)%Z ->
  loop (S fuel) acc page log =
  (Returned (firstn (Z.to_nat max_results) (acc ++ parsed)), log').
Proof.
  intros Hlt Hf He Hn Hp Ht Hs. cbn [while_loop].
  apply Z.ltb_lt in Hlt as Hb. apply Z.ltb_lt in Hs as Hsb.
  rewrite Hb, Hf, He, Hn, Hp, Ht, Hsb.
  rewrite slice_upto_firstn by lia. reflexivity.
Qed.

Lemma loop_continue (fuel : nat) (acc parsed : list ParsedRecord)
  (page : Z) (log log' : list Request) (batch : Page) (total : Z) :
  (Z.of_nat (List.length acc) < max_results)%Z ->
  fetch_page log page = Some (Ok batch, log') ->
  has_key (page_error batch) = false ->
  no_results batch = false ->
  parse_results batch query (now (List.length log)) = Ok parsed ->
  progress_total max_results batch = Ok total ->
  (per_page <= Z.of_nat (List.length parsed))%Z ->
  loop (S fuel) acc page log = loop fuel (acc ++ parsed) (page + 1)%Z log'.
Proof.
  intros Hlt Hf He Hn Hp Ht Hs. cbn [while_loop].
  apply Z.ltb_lt in Hlt as Hb. apply Z.ltb_ge in Hs as Hsb.
  rewrite Hb, Hf, He, Hn, Hp, Ht, Hsb. reflexivity.
Qed.

(** *** Termination and the bound on the result *)

Lemma loop_terminates (fuel : nat) :
  forall acc page log,
    (Z.to_nat (max_results - Z.of_nat (List.length acc)) < fuel)%nat ->
    fst (loop fuel acc page log) <> OutOfFuel.
Proof.
  induction fuel as [|fuel IH]; intros acc page log Hfuel; [lia|].
  cbn [while_loop].
  destruct (Z.of_nat (List.length acc) <? max_results)%Z eqn:Hlt;
    [|discriminate].
  apply Z.ltb_lt in Hlt.
  destruct (fetch_page log page) as [[[batch|e] log']|];
    try discriminate.
  destruct (has_key (page_error batch)); [discriminate|].
  destruct (no_results batch); [discriminate|].
  destruct (parse_results batch query (now (List.length log)))
    as [parsed|e]; [|discriminate].
  destruct (progress_total max_results batch); [|discriminate].
  destruct (Z.of_nat (List.length parsed) <? per_page)%Z eqn:Hs;
    [discriminate|].
  apply Z.ltb_ge in Hs. unfold per_page in Hs.
  apply IH. rewrite length_app. lia.
Qed.

Lemma loop_bounded (fuel : nat) :
  forall acc page log rs log',
    (0 <= max_results)%Z ->
    loop fuel acc page log = (Returned rs, log') ->
    (Z.of_nat (List.length rs) <= max_results)%Z.
Proof.
  induction fuel as [|fuel IH]; intros acc page log rs log' Hmax H;
    [discriminate|].
  cbn [while_loop] in H.
  destruct (Z.of_nat (List.length acc) <? max_results)%Z eqn:Hlt.
  2:{ injection H as <- _. now apply slice_upto_length. }
  destruct (fetch_page log page) as [[[batch|e] log1]|];
    try discriminate.
  destruct (has_key (page_error batch)).
  { injection H as <- _. now apply slice_upto_length. }
  destruct (no_results batch).
  { injection H as <- _. now apply slice_upto_length. }
  destruct (parse_results batch query (now (List.length log)))
    as [parsed|e]; [|discriminate].
  destruct (progress_total max_results batch); [|discriminate].
  destruct (Z.of_nat (List.length parsed) <? per_page)%Z.
  { injection H as <- _. now apply slice_upto_length. }
  now apply IH in H.
Qed.

(** More fuel does not change a run that ended. *)
Lemma loop_fuel_irrelevant (fuel : nat) :
  forall acc page log extra,
    fst (loop fuel acc page log) <> OutOfFuel ->
    loop (fuel + extra) acc page log = loop fuel acc page log.
Proof.
  induction fuel as [|fuel IH]; intros acc page log extra H;
    [now contradiction H|].
  cbn [while_loop Nat.add] in *.
  destruct (Z.of_nat (List.length acc) <? max_results)%Z;
    [|reflexivity].
  destruct (fetch_page log page) as [[[batch|e] log1]|];
    try reflexivity.
  destruct (has_key (page_error batch)); [reflexivity|].
  destruct (no_results batch); [reflexivity|].
  destruct (parse_results batch query (now (List.length log)))
    as [parsed|e]; [|reflexivity].
  destruct (progress_total max_results batch); [|reflexivity].
  destruct (Z.of_nat (List.length parsed) <? per_page)%Z;
    [reflexivity|].
  now apply IH.
Qed.

(** *** The requests *)

Lemma fetch_valid (log : list Request) (page : Z) :
  valid_mode search_type ->
  exists params, fetch_page log page = Some (try_get net log params).
Proof.
  unfold fetch. intros [-> | [-> | ->]]; simpl; now eexists.
Qed.

Lemma fetch_json (log : list Request) (page : Z) (body : Page) :
  valid_mode search_type ->
  (forall params, net (List.length log) params = Json body) ->
  exists params, fetch_page log page = Some (Ok body, log ++ [params]).
Proof.
  intros Hm Hn. destruct (fetch_valid log page Hm) as [params ->].
  exists params. unfold try_get. now rewrite Hn.
Qed.

Lemma fetch_failed (log : list Request) (page : Z)
  (e : RequestException) (message : string) :
  valid_mode search_type ->
  (forall params, net (List.length log) params = RequestFailed e message) ->
  exists params,
    fetch_page log page = Some (Ok (error_page message), log ++ [params]).
Proof.
  intros Hm Hn. destruct (fetch_valid log page Hm) as [params ->].
  exists params. unfold try_get. now rewrite Hn.
Qed.

Lemma parse_results_nonempty (batch : Page) (date : string)
  (parsed : list ParsedRecord) :
  has_key (page_error batch) = false ->
  parse_results batch query date = Ok parsed ->
  parsed <> [] ->
  no_results batch = false.
Proof.
  unfold parse_results, no_results. intros -> H Hne.
  destruct (page_results batch) as [| |[|w works]]; simpl in *;
    try discriminate; try reflexivity;
    injection H as <-; now contradiction Hne.
Qed.

Lemma fetch_inv (log : list Request) (page : Z)
  (x : result Page * list Request) :
  fetch_page log page = Some x ->
  exists params,
    x = try_get net log params /\
    (search_type = "title_only" -> req_page params = None) /\
    (search_type <> "title_only" -> req_page params = Some page).
Proof.
  unfold fetch.
  destruct (String.eqb search_type "title_abstract") eqn:E1.
  { apply String.eqb_eq in E1. intros H. injection H as <-.
    eexists. split; [reflexivity|]. subst search_type.
    split; [discriminate|reflexivity]. }
  destruct (String.eqb search_type "general") eqn:E2.
  { apply String.eqb_eq in E2. intros H. injection H as <-.
    eexists. split; [reflexivity|]. subst search_type.
    split; [discriminate|reflexivity]. }
  destruct (String.eqb search_type "title_only") eqn:E3; [|discriminate].
  apply String.eqb_eq in E3. intros H. injection H as <-.
  eexists. split; [reflexivity|].
  split; [reflexivity|]. intros Hne. now contradiction Hne.
Qed.

(** The requests sent by a run: in the modes other than title_only the
    [i]-th of them asks for page [page + i]; in title_only none of them
    carries a page number. *)
Lemma loop_log (fuel : nat) :
  forall acc page log out log',
    loop fuel acc page log = (out, log') ->
    exists sent,
      log' = log ++ sent /\
      (search_type <> "title_only" ->
       forall i r, nth_error sent i = Some r ->
                   req_page r = Some (page + Z.of_nat i)%Z) /\
      (search_type = "title_only" ->
       Forall (fun r => req_page r = None) sent).
Proof.
  assert (Hnil : forall (log : list Request) (page : Z),
             exists sent : list Request,
               log = log ++ sent /\
               (search_type <> "title_only" ->
                forall i r, nth_error sent i = Some r ->
                            req_page r = Some (page + Z.of_nat i)%Z) /\
               (search_type = "title_only" ->
                Forall (fun r => req_page r = None) sent)).
  { intros log page. exists []. rewrite app_nil_r.
    split; [reflexivity|]. split; [|constructor].
    intros _ [|i] r H; discriminate. }
  assert (Hone : forall (log : list Request) (page : Z) params,
             (search_type = "title_only" -> req_page params = None) ->
             (search_type <> "title_only" ->
              req_page params = Some page) ->
             exists sent : list Request,
               log ++ [params] = log ++ sent /\
               (search_type <> "title_only" ->
                forall i r, nth_error sent i = Some r ->
                            req_page r = Some (page + Z.of_nat i)%Z) /\
               (search_type = "title_only" ->
                Forall (fun r => req_page r = None) sent)).
  { intros log page params Hto Hpg. exists [params].
    split; [reflexivity|]. split.
    - intros Hm [|[|i]] r H; try discriminate.
      injection H as <-. rewrite Hpg by assumption. f_equal. lia.
    - intros Hm. constructor; [now apply Hto|constructor]. }
  induction fuel as [|fuel IH]; intros acc page log out log' H.
  { injection H as _ <-. apply Hnil. }
  cbn [while_loop] in H.
  destruct (Z.of_nat (List.length acc) <? max_results)%Z.
  2:{ injection H as _ <-. apply Hnil. }
  destruct (fetch_page log page) as [x|] eqn:Hf.
  2:{ injection H as _ <-. apply Hnil. }
  apply fetch_inv in Hf as (params & -> & Hto & Hpg).
  unfold try_get in H.
  destruct (match net (List.length log) params with
            | Json body => Ok body
            | RequestFailed _ message => Ok (error_page message)
            | OtherFailure e => Raise e
            end) as [batch|e].
  2:{ injection H as _ <-. now apply Hone. }
  destruct (has_key (page_error batch)).
  { injection H as _ <-. now apply Hone. }
  destruct (no_results batch).
  { injection H as _ <-. now apply Hone. }
  destruct (parse_results batch query (now (List.length log)))
    as [parsed|e].
  2:{ injection H as _ <-. now apply Hone. }
  destruct (progress_total max_results batch).
  2:{ injection H as _ <-. now apply Hone. }
  destruct (Z.of_nat (List.length parsed) <? per_page)%Z.
  { injection H as _ <-. now apply Hone. }
  apply IH in H as (sent & -> & Hpages & Hnone).
  exists (params :: sent). rewrite <- app_assoc. split; [reflexivity|].
  split.
  - intros Hm [|i] r Hr; simpl in Hr.
    + injection Hr as <-. rewrite Hpg by assumption. f_equal. lia.
    + rewrite (Hpages Hm i r Hr). f_equal. lia.
  - intros Hm. constructor; [now apply Hto|now apply Hnone].
Qed.

Lemma get_all_results_terminates :
  fst (get_all_results net now query max_results search_type)
  <> OutOfFuel.
Proof.
  apply loop_terminates. simpl. lia.
Qed.

Lemma loop_returns (fuel : nat) :
  valid_mode search_type ->
  net_well_formed net now query max_results ->
  forall acc page log,
    (Z.to_nat (max_results - Z.of_nat (List.length acc)) < fuel)%nat ->
    exists rs, fst (loop fuel acc page log) = Returned rs.
Proof.
  intros Hm Hwf.
  induction fuel as [|fuel IH]; intros acc page log Hfuel; [lia|].
  cbn [while_loop].
  destruct (Z.of_nat (List.length acc) <? max_results)%Z eqn:Hlt;
    [|now eexists].
  apply Z.ltb_lt in Hlt.
  destruct (fetch_valid log page Hm) as [params ->].
  unfold try_get. specialize (Hwf (List.length log) params).
  destruct (net (List.length log) params) as [body|e message|e];
    [|now eexists|contradiction].
  destruct (has_key (page_error body)); [now eexists|].
  destruct (no_results body); [now eexists|].
  destruct Hwf as [[parsed ->] [total ->]]; try reflexivity.
  destruct (Z.of_nat (List.length parsed) <? per_page)%Z eqn:Hs;
    [now eexists|].
  apply Z.ltb_ge in Hs. unfold per_page in Hs.
  apply IH. rewrite length_app. lia.
Qed.

(** The test [not batch.get('results')] on the content of the page. *)
Lemma no_results_iff (batch : Page) :
  no_results batch = true <->
  page_results batch = Absent \/ page_results batch = Null \/
  page_results batch = Present [].
Proof.
  unfold no_results.
  destruct (page_results batch) as [| |[|w works]]; simpl; split;
    try (intros [H | [H | H]]); try discriminate; auto.
Qed.

(** C5.  For [max_results >= 1] and one of the three modes the retriever
    ends; what it returns has at most [max_results] records, and it does
    return when the answers of the remote side are well formed.  A pass
    of the loop sends no request once the accumulator holds
    [max_results] records; it ends the loop on a page whose results are
    absent, null or the empty list, and on a page that parses to fewer
    than 200 records; the result is the accumulator cut to
    [max_results].  With [max_results = 250] and pages of 200 and 50
    records there are two fetches and 250 records; with a first page of
    150 records there is one fetch; with a full first page followed by a
    page without results there are two fetches and the 200 records of the
    first page are returned. *)
Theorem get_all_results_stops :
  (1 <= max_results)%Z ->
  valid_mode search_type ->
  fst (get_all_results net now query max_results search_type)
    <> OutOfFuel /\
  (forall rs,
      fst (get_all_results net now query max_results search_type)
        = Returned rs ->
      (Z.of_nat (List.length rs) <= max_results)%Z) /\
  (net_well_formed net now query max_results ->
   exists rs,
     fst (get_all_results net now query max_results search_type)
       = Returned rs) /\
  (forall fuel acc page log,
      ((max_results <= Z.of_nat (List.length acc))%Z ->
       loop (S fuel) acc page log =
         (Returned (firstn (Z.to_nat max_results) acc), log)) /\
      (forall batch log',
          (Z.of_nat (List.length acc) < max_results)%Z ->
          fetch_page log page = Some (Ok batch, log') ->
          page_error batch = Absent ->
          (page_results batch = Absent \/ page_results batch = Null \/
           page_results batch = Present [] ->
           loop (S fuel) acc page log = (Returned acc, log')) /\
          (forall work works parsed total,
              page_results batch = Present (work :: works) ->
              parse_results batch query (now (List.length log))
                = Ok parsed ->
              progress_total max_results batch = Ok total ->
              (Z.of_nat (List.length parsed) < 200)%Z ->
              loop (S fuel) acc page log =
                (Returned (firstn (Z.to_nat max_results) (acc ++ parsed)),
                 log')))) /\
  (forall p1 p2 r1 r2 t1 t2,
      max_results = 250%Z ->
      (forall params, net 0%nat params = Json p1) ->
      (forall params, net 1%nat params = Json p2) ->
      has_key (page_error p1) = false ->
      has_key (page_error p2) = false ->
      parse_results p1 query (now 0%nat) = Ok r1 ->
      parse_results p2 query (now 1%nat) = Ok r2 ->
      List.length r1 = 200%nat ->
      List.length r2 = 50%nat ->
      progress_total max_results p1 = Ok t1 ->
      progress_total max_results p2 = Ok t2 ->
      exists log,
        get_all_results net now query max_results search_type
          = (Returned (r1 ++ r2), log) /\
        List.length log = 2%nat /\
        List.length (r1 ++ r2) = 250%nat) /\
  (forall p1 r1 t1,
      (150 < max_results)%Z ->
      (forall params, net 0%nat params = Json p1) ->
      has_key (page_error p1) = false ->
      parse_results p1 query (now 0%nat) = Ok r1 ->
      List.length r1 = 150%nat ->
      progress_total max_results p1 = Ok t1 ->
      exists log,
        get_all_results net now query max_results search_type
          = (Returned r1, log) /\
        List.length log = 1%nat) /\
  (forall p1 p2 r1 t1,
      (200 < max_results)%Z ->
      (forall params, net 0%nat params = Json p1) ->
      (forall params, net 1%nat params = Json p2) ->
      page_error p1 = Absent ->
      page_error p2 = Absent ->
      parse_results p1 query (now 0%nat) = Ok r1 ->
      List.length r1 = 200%nat ->
      progress_total max_results p1 = Ok t1 ->
      page_results p2 = Absent \/ page_results p2 = Null \/
      page_results p2 = Present [] ->
      exists log,
        get_all_results net now query max_results search_type
          = (Returned r1, log) /\
        List.length log = 2%nat).
Proof.
  intros Hmax Hmode.
  split; [apply get_all_results_terminates|].
  split; [|split; [|split; [|split; [|split]]]].
  - intros rs H. unfold get_all_results in H.
    destruct (loop (S (Z.to_nat max_results)) [] 1%Z []) as [out log]
      eqn:E.
    simpl in H. subst out. eapply loop_bounded; [|exact E]. lia.
  - intros Hwf. apply loop_returns; try assumption. simpl. lia.
  - intros fuel acc page log. split.
    + intros H. rewrite loop_full by assumption.
      now rewrite slice_upto_firstn by lia.
    + intros batch log' Hlt Hf He. split.
      * intros Hn. apply loop_empty with (batch := batch);
          try assumption; [now rewrite He|now apply no_results_iff].
      * intros work works parsed total Hr Hp Ht Hs.
        apply loop_short with (batch := batch) (total := total);
          try assumption; [now rewrite He|].
        unfold no_results. now rewrite Hr.
  - intros p1 p2 r1 r2 t1 t2 E250 H1 H2 He1 He2 Hp1 Hp2 Hl1 Hl2 Ht1 Ht2.
    destruct (fetch_json [] 1%Z p1 Hmode H1) as [q1 Hf1].
    destruct (fetch_json ([] ++ [q1]) (1 + 1)%Z p2 Hmode H2) as [q2 Hf2].
    exists (([] ++ [q1]) ++ [q2]).
    split; [|split; [reflexivity|rewrite length_app; lia]].
    unfold get_all_results.
    replace (Z.to_nat max_results) with (S 249)
      by (subst max_results; reflexivity).
    rewrite loop_continue
      with (batch := p1) (parsed := r1) (total := t1) (log' := [] ++ [q1]);
      try assumption.
    + rewrite loop_short
        with (batch := p2) (parsed := r2) (total := t2)
             (log' := ([] ++ [q1]) ++ [q2]);
        try assumption.
      * rewrite app_nil_l, firstn_all2; [reflexivity|].
        rewrite length_app. lia.
      * rewrite app_nil_l, Hl1. lia.
      * apply parse_results_nonempty with (date := now 1%nat) (parsed := r2);
          try assumption.
        intros ->. discriminate.
      * rewrite Hl2. unfold per_page. lia.
    + simpl. lia.
    + apply parse_results_nonempty with (date := now 0%nat) (parsed := r1);
        try assumption.
      intros ->. discriminate.
    + rewrite Hl1. unfold per_page. lia.
  - intros p1 r1 t1 H150 H1 He1 Hp1 Hl1 Ht1.
    destruct (fetch_json [] 1%Z p1 Hmode H1) as [q1 Hf1].
    exists ([] ++ [q1]). split; [|reflexivity].
    unfold get_all_results.
    rewrite loop_short
      with (batch := p1) (parsed := r1) (total := t1) (log' := [] ++ [q1]);
      try assumption.
    + rewrite app_nil_l, firstn_all2; [reflexivity|lia].
    + simpl. lia.
    + apply parse_results_nonempty with (date := now 0%nat) (parsed := r1);
        try assumption.
      intros ->. discriminate.
    + rewrite Hl1. unfold per_page. lia.
  - intros p1 p2 r1 t1 H200 H1 H2 He1 He2 Hp1 Hl1 Ht1 Hr2.
    destruct (fetch_json [] 1%Z p1 Hmode H1) as [q1 Hf1].
    destruct (fetch_json ([] ++ [q1]) (1 + 1)%Z p2 Hmode H2) as [q2 Hf2].
    exists (([] ++ [q1]) ++ [q2]). split; [|reflexivity].
    unfold get_all_results.
    destruct (Z.to_nat max_results) as [|[|fuel]] eqn:Ef; try lia.
    assert (He1' : has_key (page_error p1) = false) by now rewrite He1.
    rewrite loop_continue
      with (batch := p1) (parsed := r1) (total := t1) (log' := [] ++ [q1]);
      try assumption.
    + apply loop_empty with (batch := p2); try assumption.
      * rewrite ?app_nil_l, Hl1. lia.
      * now rewrite He2.
      * now apply no_results_iff.
    + simpl. lia.
    + apply parse_results_nonempty with (date := now 0%nat) (parsed := r1);
        try assumption.
      intros ->. discriminate.
    + rewrite Hl1. unfold per_page. lia.
Qed.


End Retriever.

Lemma get_all_results_stops_witness :
  ((1 <= 250)%Z /\ valid_mode "title_abstract" /\
   exists rs log,
     get_all_results net_250 noon "q" 250 "title_abstract"
       = (Returned rs, log) /\
     List.length log = 2%nat /\ List.length rs = 250%nat) /\
  ((1 <= 500)%Z /\ valid_mode "general" /\
   page_results (page_of 0) = Present [] /\
   exists rs log,
     get_all_results net_200_then_empty noon "q" 500 "general"
       = (Returned rs, log) /\
     List.length log = 2%nat /\ List.length rs = 200%nat).
Proof.
  split.
  - split; [lia|]. split; [left; reflexivity|].
    destruct (get_all_results_stops net_250 noon "q" 250 "title_abstract")
      as (_ & _ & _ & _ & H & _); [lia|left; reflexivity|].
    edestruct (H (page_of 200) (page_of 50)) as (log & E & L & L');
      try (vm_compute; reflexivity).
    eexists. exists log. split; [exact E|]. split; assumption.
  - split; [lia|]. split; [right; left; reflexivity|].
    split; [reflexivity|].
    destruct (get_all_results_stops net_200_then_empty noon "q" 500
                "general")
      as (_ & _ & _ & _ & _ & _ & H); [lia|right; left; reflexivity|].
    assert (Hp : exists r1,
               parse_results (page_of 200) "q" (noon 0%nat) = Ok r1 /\
               List.length r1 = 200%nat).
    { eexists. split; vm_compute; reflexivity. }
    destruct Hp as (r1 & Hp & Hl).
    destruct (H (page_of 200) (page_of 0) r1 500%Z) as (log & E & L);
      try reflexivity; try assumption; try lia.
    + right. right. reflexivity.
    + exists r1, log. split; [exact E|]. split; assumption.
Defined.


(** A timeout on the second page: the 200 records of the first page are
    returned and no third request is sent. *)
Example timeout_on_second_page :
  exists rs log,
    get_all_results net_timeout_second noon "q" 500 "general"
      = (Returned rs, log) /\
    List.length rs = 200%nat /\ map req_page log = [Some 1%Z; Some 2%Z].
Proof.
  eexists. eexists. split; [vm_compute; reflexivity|].
  split; reflexivity.
Qed.

(** C2.  In the modes title_abstract and general the requests carry the
    page counter, 1 and then 2; in the mode title_only the fetcher takes no
    page number, so with [max_results = 400] and a full first page the
    same request, without a page parameter, is sent twice and the 200
    records of the first page come back twice. *)
Theorem title_only_repeats_request :
  map req_page (snd (get_all_results net_full noon "q" 400 "title_only"))
    = [None; None] /\
  (exists params,
      snd (get_all_results net_full noon "q" 400 "title_only")
        = [params; params]) /\
  (exists rs,
      fst (get_all_results net_full noon "q" 400 "title_only")
        = Returned (rs ++ rs) /\ List.length rs = 200%nat) /\
  map req_page (snd (get_all_results net_full noon "q" 400 "title_abstract"))
    = [Some 1%Z; Some 2%Z].
Proof.
  split; [vm_compute; reflexivity|].
  split; [eexists; vm_compute; reflexivity|].
  split; [|vm_compute; reflexivity].
  exists (match parse_results (page_of 200) "q" (noon 0%nat) with
          | Ok l => l
          | Raise _ => []
          end).
  split; vm_compute; reflexivity.
Qed.

(** ** Consolidator *)

Section Consolidator.

Lemma value_eqb_eq (a b : value) : value_eqb a b = true <-> a = b.
Proof.
  destruct a, b; simpl; split; intros H;
    try reflexivity; try discriminate.
  - apply String.eqb_eq in H. now subst.
  - injection H as ->. apply String.eqb_refl.
  - apply Bool.eqb_prop in H. now subst.
  - injection H as ->. apply Bool.eqb_reflx.
Qed.

Lemma later_key_spec (r : ParsedRecord) (rest : list ParsedRecord) :
  existsb (fun r' => value_eqb (dedup_key r') (dedup_key r)) rest = true
  <-> In (dedup_key r) (map dedup_key rest).
Proof.
  rewrite existsb_exists, in_map_iff.
  split; intros (r' & H1 & H2); exists r'.
  - apply value_eqb_eq in H2. now split.
  - split; [assumption|]. now apply value_eqb_eq.
Qed.

(** The keys of the table are kept, each once. *)
Lemma drop_duplicates_last_keys (rows : list ParsedRecord)
  (k : value) :
  In k (map dedup_key (drop_duplicates_last rows)) <->
  In k (map dedup_key rows).
Proof.
  induction rows as [|r rest IH]; simpl; [reflexivity|].
  destruct (existsb _ rest) eqn:E.
  - apply later_key_spec in E. rewrite IH. split; [now right|].
    intros [<- | H]; assumption.
  - simpl. now rewrite IH.
Qed.

Lemma drop_duplicates_last_NoDup (rows : list ParsedRecord) :
  NoDup (map dedup_key (drop_duplicates_last rows)).
Proof.
  induction rows as [|r rest IH]; simpl; [constructor|].
  destruct (existsb _ rest) eqn:E; [assumption|].
  simpl. constructor; [|assumption].
  rewrite drop_duplicates_last_keys. intros H.
  apply later_key_spec in H. congruence.
Qed.

(** A row is kept exactly when no later row has its key. *)
Lemma drop_duplicates_last_keeps (before after : list ParsedRecord)
  (r : ParsedRecord) :
  ~ In (dedup_key r) (map dedup_key after) ->
  In r (drop_duplicates_last (before ++ r :: after)).
Proof.
  intros Hlast. induction before as [|b before IH]; simpl.
  - destruct (existsb _ after) eqn:E.
    + apply later_key_spec in E. contradiction.
    + now left.
  - destruct (existsb _ (before ++ r :: after)); [assumption|].
    now right.
Qed.

Lemma drop_duplicates_last_kept (rows : list ParsedRecord)
  (r : ParsedRecord) :
  In r (drop_duplicates_last rows) ->
  exists before after,
    rows = before ++ r :: after /\
    ~ In (dedup_key r) (map dedup_key after).
Proof.
  induction rows as [|x rest IH]; simpl; [contradiction|].
  destruct (existsb _ rest) eqn:E.
  - intros H. destruct (IH H) as (before & after & -> & Hlast).
    now exists (x :: before), after.
  - intros [<- | H].
    + exists [], rest. split; [reflexivity|].
      intros H. apply later_key_spec in H. congruence.
    + destruct (IH H) as (before & after & -> & Hlast).
      now exists (x :: before), after.
Qed.

Lemma drop_duplicates_last_length (rows : list ParsedRecord) :
  (List.length (drop_duplicates_last rows) <= List.length rows)%nat.
Proof.
  induction rows as [|r rest IH]; simpl; [lia|].
  destruct (existsb _ rest); simpl; lia.
Qed.

(** Tables with the same keys keep the same number of rows. *)
Lemma drop_duplicates_last_same_keys (rows rows' : list ParsedRecord) :
  (forall k, In k (map dedup_key rows) <-> In k (map dedup_key rows')) ->
  List.length (drop_duplicates_last rows) =
  List.length (drop_duplicates_last rows').
Proof.
  intros H.
  rewrite <- (length_map dedup_key (drop_duplicates_last rows)).
  rewrite <- (length_map dedup_key (drop_duplicates_last rows')).
  apply Nat.le_antisymm; apply NoDup_incl_length;
    try apply drop_duplicates_last_NoDup;
    intros k Hk; apply drop_duplicates_last_keys;
    apply H; now apply drop_duplicates_last_keys.
Qed.

Lemma consolidate_rows (existing_df new_df : list ParsedRecord) :
  fst (consolidate existing_df new_df) =
  drop_duplicates_last (existing_df ++ new_df).
Proof.
  unfold consolidate. now destruct existing_df.
Qed.

(** X13.  With the key that the consolidator uses (the DOI unless it is
    [None] or [NaN], else "NO_DOI_" followed by the title as a string), no
    two saved rows share a key; a row of the existing table followed by
    the new records is saved exactly when no later row has its key; and
    [duplicates_removed] is the number of existing rows plus the number of
    new records minus the number of saved rows. *)
Lemma consolidate_spec (existing_df new_df : list ParsedRecord) :
  let rows := fst (consolidate existing_df new_df) in
  NoDup (map dedup_key rows) /\
  (forall r, In r rows <->
             exists before after,
               existing_df ++ new_df = before ++ r :: after /\
               ~ In (dedup_key r) (map dedup_key after)) /\
  snd (consolidate existing_df new_df) =
    (Z.of_nat (List.length existing_df) + Z.of_nat (List.length new_df)
     - Z.of_nat (List.length rows))%Z.
Proof.
  cbv zeta. rewrite consolidate_rows. split; [|split].
  - apply drop_duplicates_last_NoDup.
  - intros r. split; [apply drop_duplicates_last_kept|].
    intros (before & after & -> & H).
    now apply drop_duplicates_last_keeps.
  - unfold consolidate. destruct existing_df; cbn [snd];
      rewrite ?length_app; cbn [List.length app]; lia.
Qed.

(** X15.  Merging the same batch again into any table that has exactly the
    keys of the table just saved leaves the number of rows unchanged: a
    second save can change the count only if reading the file back
    changes the key of a row. *)
Lemma consolidate_again (existing_df reloaded new_df : list ParsedRecord) :
  (forall k,
      In k (map dedup_key reloaded) <->
      In k (map dedup_key (fst (consolidate existing_df new_df)))) ->
  List.length (fst (consolidate reloaded new_df)) =
  List.length (fst (consolidate existing_df new_df)).
Proof.
  intros Hkeys. rewrite !consolidate_rows in *.
  apply drop_duplicates_last_same_keys. intros k.
  specialize (Hkeys k).
  rewrite drop_duplicates_last_keys in Hkeys.
  rewrite !map_app, !in_app_iff in *. tauto.
Qed.

(** C1.  The consolidator falls back on the title only when the DOI is
    missing ([None] or [NaN]); the empty string, which the parser gives to
    a work without a [doi] key, is kept as the key.  Two such works with
    the titles "A" and "B" have different keys in the sense of the
    specification, yet the same key in the code, and only the second one
    is saved. *)
Theorem save_to_csv_merges_empty_doi :
  exists rA rB log stats ops,
    get_all_results
      (net_of [work_without_doi "A"; work_without_doi "B"])
      noon "q" 10 "general" = (Returned [rA; rB], log) /\
    (doi rA = VStr EmptyString /\ title rA = VStr "A") /\
    (doi rB = VStr EmptyString /\ title rB = VStr "B") /\
    spec_dedup_key rA <> spec_dedup_key rB /\
    dedup_key rA = dedup_key rB /\
    save_to_csv
      (net_of [work_without_doi "A"; work_without_doi "B"])
      noon NoFile "q" "f.csv" 10 "general"
      = (Returned stats, Table [rB], ops, log) /\
    new_records stats = 2%Z /\
    total_records stats = 1%Z /\
    duplicates_removed stats = Some 1%Z.
Proof.
  do 5 eexists.
  split; [vm_compute; reflexivity|].
  split; [split; reflexivity|].
  split; [split; reflexivity|].
  split; [discriminate|].
  split; [reflexivity|].
  split; [vm_compute; reflexivity|].
  repeat split.
Qed.

(** C9.  Saving the same batch twice in a row: a work without a [doi]
    key is stored with the empty DOI as its key; read back from the file
    the empty DOI is a missing value and the key becomes the title, so
    the second save does not recognise the row and the count grows from
    1 to 2. *)
Theorem save_to_csv_twice_grows :
  exists first second csv1 csv2 ops1 ops2 log,
    save_to_csv (net_of [work_without_doi "A"]) noon NoFile
                "q" "f.csv" 10 "general"
      = (Returned first, csv1, ops1, log) /\
    save_to_csv (net_of [work_without_doi "A"]) noon csv1
                "q" "f.csv" 10 "general"
      = (Returned second, csv2, ops2, log) /\
    new_records first = new_records second /\
    total_records first = 1%Z /\
    total_records second = 2%Z.
Proof.
  do 7 eexists.
  split; [vm_compute; reflexivity|].
  split; [vm_compute; reflexivity|].
  repeat split.
Qed.

(** C10.  When the retrieval returns no record, [save_to_csv] returns
    the counts 0 and 0, performs no operation on the file and leaves it
    as it was. *)
Theorem save_to_csv_no_results (net : Network) (now : nat -> string)
  (csv : CsvFile) (query csv_filename : string) (max_results : Z)
  (search_type : string) (log : list Request) :
  get_all_results net now query max_results search_type
    = (Returned [], log) ->
  exists stats,
    save_to_csv net now csv query csv_filename max_results search_type
      = (Returned stats, csv, [], log) /\
    new_records stats = 0%Z /\
    total_records stats = 0%Z.
Proof.
  intros H. unfold save_to_csv. rewrite H. simpl.
  eexists. repeat split.
Qed.

End Consolidator.

Lemma save_to_csv_no_results_witness :
  exists log stats,
    get_all_results net_down noon "q" 100 "title_abstract"
      = (Returned [], log) /\
    save_to_csv net_down noon (Table [example_record]) "q" "f.csv" 100
                "title_abstract"
      = (Returned stats, Table [example_record], [], log) /\
    new_records stats = 0%Z /\ total_records stats = 0%Z.
Proof.
  eexists.
  edestruct (save_to_csv_no_results net_down noon (Table [example_record])
               "q" "f.csv" 100 "title_abstract") as (stats & E & N & T);
    [vm_compute; reflexivity|].
  exists stats. split; [vm_compute; reflexivity|].
  split; [exact E|]. split; assumption.
Defined.

(** * Further properties *)

(** ** Query normaliser *)

Section NormaliserOutput.

Lemma contains_comma_cons (c : ascii) (s : string) :
  PyStr.contains "," (String c s) =
  Ascii.eqb "," c || PyStr.contains "," s.
Proof.
  cbn [PyStr.contains]. f_equal.
  change (String.prefix "," (String c s))
    with (if ascii_dec "," c then String.prefix EmptyString s else false).
  destruct (ascii_dec "," c) as [<- | Hne].
  - now destruct s.
  - apply Ascii.eqb_neq in Hne. now rewrite Hne.
Qed.

Lemma no_comma_cons (c : ascii) (s : string) :
  no_comma (String c s) <-> Ascii.eqb "," c = false /\ no_comma s.
Proof.
  unfold no_comma. rewrite contains_comma_cons. apply orb_false_iff.
Qed.

Lemma no_comma_app (s t : string) :
  no_comma s -> no_comma t -> no_comma (s ++ t).
Proof.
  induction s as [|c s IH]; simpl; intros Hs Ht; [assumption|].
  apply no_comma_cons in Hs as [Hc Hs].
  apply no_comma_cons. split; [assumption|now apply IH].
Qed.

Lemma split_no_comma (s : string) :
  Forall no_comma (PyStr.split comma s).
Proof.
  induction s as [|a s IH]; simpl.
  - repeat constructor.
  - destruct (Ascii.eqb a comma) eqn:E.
    + constructor; [reflexivity|assumption].
    + destruct (PyStr.split comma s) as [|h t].
      * repeat constructor. apply no_comma_cons. split; [|reflexivity].
        rewrite Ascii.eqb_sym. exact E.
      * inversion IH as [|? ? Hh Ht]; subst.
        constructor; [|assumption].
        apply no_comma_cons. split; [|assumption].
        rewrite Ascii.eqb_sym. exact E.
Qed.

Lemma lstrip_no_comma (s : string) :
  no_comma s -> no_comma (PyStr.lstrip s).
Proof.
  induction s as [|c s IH]; simpl; intros H; [assumption|].
  destruct (PyStr.is_space c); [|assumption].
  apply IH. now apply no_comma_cons in H.
Qed.

Lemma rstrip_no_comma (s : string) :
  no_comma s -> no_comma (PyStr.rstrip s).
Proof.
  induction s as [|c s IH]; simpl; intros H; [assumption|].
  apply no_comma_cons in H as [Hc Hs]. specialize (IH Hs).
  destruct (PyStr.rstrip s).
  - destruct (PyStr.is_space c); [reflexivity|].
    apply no_comma_cons. now split.
  - apply no_comma_cons. now split.
Qed.

Lemma strip_no_comma (s : string) :
  no_comma s -> no_comma (PyStr.strip s).
Proof.
  intros H. now apply rstrip_no_comma, lstrip_no_comma.
Qed.

Lemma quote_if_needed_no_comma (s : string) :
  no_comma s -> no_comma (quote_if_needed s).
Proof.
  intros H. unfold quote_if_needed.
  destruct (_ && _); [|assumption].
  apply no_comma_app; [reflexivity|].
  apply no_comma_app; [assumption|reflexivity].
Qed.

Lemma join_no_comma (l : list string) :
  Forall no_comma l -> no_comma (PyStr.join " OR " l).
Proof.
  unfold PyStr.join.
  induction 1 as [|x l Hx Hl IH]; [reflexivity|].
  destruct l as [|y l]; [assumption|].
  change (no_comma (x ++ " OR " ++ String.concat " OR " (y :: l))).
  apply no_comma_app; [assumption|].
  apply no_comma_app; [reflexivity|assumption].
Qed.

Lemma formatted_terms_no_comma (query : string) :
  Forall no_comma
    (map quote_if_needed
       (filter PyStr.truthy (map PyStr.strip (PyStr.split comma query)))).
Proof.
  apply Forall_map.
  apply Forall_forall. intros t Ht.
  apply filter_In in Ht as [Ht _].
  apply in_map_iff in Ht as (part & <- & Hpart).
  apply quote_if_needed_no_comma, strip_no_comma.
  pose proof (split_no_comma query) as Hs.
  rewrite Forall_forall in Hs. now apply Hs.
Qed.

Lemma format_query_no_comma (query : string) :
  no_comma (_format_query_for_openalex query) \/
  _format_query_for_openalex query = query.
Proof.
  unfold _format_query_for_openalex.
  destruct (_ && _); [left|now right].
  rewrite format_term_loop, strip_filtered. simpl app.
  apply join_no_comma, formatted_terms_no_comma.
Qed.

(** X2.  The normaliser is idempotent: a query that it has rewritten holds
    no comma any more, so normalising it a second time returns it
    unchanged. *)
Theorem format_query_idempotent (query : string) :
  _format_query_for_openalex (_format_query_for_openalex query) =
  _format_query_for_openalex query.
Proof.
  destruct (format_query_no_comma query) as [H | H].
  - unfold no_comma in H.
    unfold _format_query_for_openalex at 1. now rewrite H.
  - now rewrite H.
Qed.

End NormaliserOutput.

(** ** Abstract reconstructor *)

Section ReconstructorText.

Lemma numbered_from (words : list string) :
  forall k x,
    In x (combine (map Z.of_nat (seq k (List.length words))) words) ->
    (Z.of_nat k <= fst x)%Z.
Proof.
  induction words as [|w words IH]; intros k x; simpl; [contradiction|].
  intros [<- | H]; simpl; [lia|].
  apply IH in H. lia.
Qed.

Lemma numbered_sorted (words : list string) :
  forall k,
    StronglySorted before_position
      (combine (map Z.of_nat (seq k (List.length words))) words).
Proof.
  induction words as [|w words IH]; intros k; simpl; constructor.
  - apply IH.
  - apply Forall_forall. intros x Hx.
    apply numbered_from in Hx. unfold before_position. simpl. lia.
Qed.

Lemma numbered_words (words : list string) :
  forall k,
    map snd (combine (map Z.of_nat (seq k (List.length words))) words)
    = words.
Proof.
  induction words as [|w words IH]; intros k; simpl; [reflexivity|].
  now rewrite IH.
Qed.

(** A list sorted by position is determined by its elements when no two of
    them share a position. *)
Lemma sorted_by_position_unique (l1 : list pos_word) :
  forall l2,
    Sorted by_position l1 ->
    StronglySorted before_position l2 ->
    Permutation l1 l2 ->
    l1 = l2.
Proof.
  induction l1 as [|a l1 IH]; intros l2 H1 H2 Hp.
  - apply Permutation_nil in Hp. now subst.
  - destruct l2 as [|b l2].
    { apply Permutation_sym, Permutation_nil in Hp. discriminate. }
    apply Sorted_StronglySorted in H1.
    2:{ intros x y z. unfold by_position. lia. }
    inversion H1 as [|? ? Hs1 Hf1]; subst.
    inversion H2 as [|? ? Hs2 Hf2]; subst.
    rewrite Forall_forall in Hf1, Hf2.
    assert (E : a = b).
    { assert (Ha : In a (b :: l2))
        by (eapply Permutation_in; [exact Hp|now left]).
      assert (Hb : In b (a :: l1))
        by (eapply Permutation_in;
            [apply Permutation_sym; exact Hp|now left]).
      destruct Ha as [Ha | Ha]; [now symmetry|].
      destruct Hb as [Hb | Hb]; [assumption|].
      apply Hf2 in Ha. apply Hf1 in Hb.
      unfold before_position, by_position in *. lia. }
    subst b. f_equal.
    apply IH; [now apply StronglySorted_Sorted|assumption|].
    now apply Permutation_cons_inv in Hp.
Qed.

(** X3.  Decoding an inverted index of a text: when the index lists
    exactly the positions 0 .. n-1, the word of position i being the i-th
    word of the text, the reconstructor gives back the words of the text
    joined by single spaces, cut to 500 characters and "..." when longer;
    the order of the keys and of the positions in the index is
    irrelevant. *)
Theorem convert_inverted_abstract_text (inverted_index : InvertedIndex)
  (words : list string) :
  Permutation (flatten inverted_index) (text_pairs words) ->
  _convert_inverted_abstract (Some inverted_index) =
    let text := PyStr.join " " words in
    if (500 <? String.length text)%nat
    then (substring 0 500 text ++ "...")%string
    else text.
Proof.
  intros Hp.
  assert (E : sort_by_position (flatten inverted_index) = text_pairs words).
  { apply sorted_by_position_unique.
    - apply sort_by_position_sorted.
    - apply numbered_sorted.
    - rewrite sort_by_position_perm. exact Hp. }
  assert (Hw : map snd (text_pairs words) = words).
  { apply numbered_words. }
  destruct inverted_index as [|item idx].
  - apply Permutation_nil in Hp.
    destruct words; [reflexivity|discriminate].
  - unfold _convert_inverted_abstract.
    rewrite collect_word_positions_flatten, E, Hw. reflexivity.
Qed.

Lemma substring_prefix_bound (n : nat) (s : string) :
  (String.length (substring 0 n s) <= n)%nat.
Proof.
  revert s. induction n as [|n IH]; intros [|c s]; simpl; try lia.
  specialize (IH s). lia.
Qed.

Lemma convert_inverted_abstract_bound
  (inverted_index : option InvertedIndex) :
  (String.length (_convert_inverted_abstract inverted_index) <= 503)%nat.
Proof.
  unfold _convert_inverted_abstract.
  destruct inverted_index as [[|item idx]|]; simpl String.length; try lia.
  destruct (500 <? _)%nat eqn:E.
  - rewrite string_length_app.
    pose proof (substring_prefix_bound 500
      (PyStr.join " "
         (map snd (sort_by_position
                     (collect_word_positions (item :: idx)))))).
    simpl String.length at 2. lia.
  - apply Nat.ltb_ge in E. lia.
Qed.

End ReconstructorText.

Lemma convert_inverted_abstract_text_witness :
  Permutation (flatten [("hello", [1%Z]); ("world", [0%Z])])
              (text_pairs ["world"; "hello"]) /\
  _convert_inverted_abstract (Some [("hello", [1%Z]); ("world", [0%Z])]) =
    "world hello".
Proof.
  assert (H : Permutation (flatten [("hello", [1%Z]); ("world", [0%Z])])
                          (text_pairs ["world"; "hello"]))
    by apply perm_swap.
  split; [exact H|].
  exact (convert_inverted_abstract_text
           [("hello", [1%Z]); ("world", [0%Z])] ["world"; "hello"] H).
Defined.

(** ** Record parser *)

Section ParserRecords.

Variables query date : string.

Lemma collect_authors_nonnull (auths : list Authorship) :
  forall authors names,
    collect_authors auths authors = Ok names ->
    Forall (fun auth => authorship_author auth <> Null) auths.
Proof.
  induction auths as [|auth rest IH]; intros authors names H;
    [constructor|].
  simpl in H. unfold author_name in H.
  destruct (authorship_author auth) as [| |a] eqn:E; simpl in H;
    try discriminate.
  - constructor; [congruence|]. eapply IH; exact H.
  - constructor; [congruence|].
    destruct (author_display_name a) as [| |[|c s]]; simpl in H;
      eapply IH; exact H.
Qed.

Lemma collect_authors_raises (auths : list Authorship) :
  forall authors e,
    collect_authors auths authors = Raise e -> e = AttributeError.
Proof.
  induction auths as [|auth rest IH]; intros authors e H; simpl in H;
    [discriminate|].
  unfold author_name in H.
  destruct (authorship_author auth) as [| |a]; simpl in H.
  - eapply IH; exact H.
  - now injection H as <-.
  - destruct (author_display_name a) as [| |[|c s]]; simpl in H;
      eapply IH; exact H.
Qed.

Lemma work_authors_nonnull (work : Work) (authors : list string) :
  work_authors work = Ok authors ->
  Forall (fun auth => authorship_author auth <> Null)
         (firstn 3 (authorships_of work)).
Proof.
  unfold work_authors, authorships_of.
  destruct (work_authorships work) as [| |[|a l]]; simpl get;
    try (intros _; rewrite firstn_nil; constructor).
  apply collect_authors_nonnull.
Qed.

Lemma work_authors_raises (work : Work) (e : exn) :
  work_authors work = Raise e -> e = AttributeError.
Proof.
  unfold work_authors.
  destruct (get (work_authorships work)) as [[|a l]|]; try discriminate.
  apply collect_authors_raises.
Qed.

(** X6.  The parser raises on a work exactly when one of its first three
    authorships has a null author, or its identifier is null, or its
    open-access block is null; every other absent or null key is
    defaulted.  What it raises is an AttributeError. *)
Theorem parse_work_raises (work : Work) :
  ((exists r, parse_work query date work = Ok r) <->
   parses work) /\
  (forall e,
      parse_work query date work = Raise e -> e = AttributeError).
Proof.
  split; [split|].
  - intros [r H]. unfold parse_work in H.
    destruct (work_authors work) as [authors|] eqn:Ha; simpl in H;
      [|discriminate].
    split; [now apply work_authors_nonnull in Ha|].
    destruct (work_id work); simpl in H; try discriminate;
      (destruct (work_open_access work); simpl in H; try discriminate);
      split; discriminate.
  - intros (Ha & Hid & Hoa). now apply parse_work_total.
  - intros e H. unfold parse_work in H.
    destruct (work_authors work) as [authors|e'] eqn:Ha; simpl in H.
    2:{ injection H as <-. now apply work_authors_raises in Ha. }
    destruct (get_or (work_id work) EmptyString); simpl in H.
    2:{ now injection H as <-. }
    destruct (get_or (work_open_access work) empty_open_access);
      simpl in H; [discriminate|].
    now injection H as <-.
Qed.

Lemma parse_works_per_work (works : list Work) :
  forall acc rs,
    parse_works query date works acc = Ok rs <->
    exists parsed,
      rs = acc ++ parsed /\
      Forall2 (fun w r => parse_work query date w = Ok r)
              works parsed.
Proof.
  induction works as [|w works IH]; intros acc rs; simpl.
  - split.
    + intros H. injection H as <-. exists []. rewrite app_nil_r.
      split; [reflexivity|constructor].
    + intros (parsed & -> & H). inversion H. now rewrite app_nil_r.
  - destruct (parse_work query date w) as [r|e] eqn:E; simpl.
    + rewrite IH. split.
      * intros (parsed & -> & H). exists (r :: parsed).
        rewrite <- app_assoc. split; [reflexivity|].
        now constructor.
      * intros (parsed & -> & H).
        inversion H as [|? r' ? parsed' Hr Hrest]; subst.
        exists parsed'. rewrite <- app_assoc. simpl.
        split; [|assumption]. congruence.
    + split; [discriminate|].
      intros (parsed & _ & H). inversion H; subst. congruence.
Qed.

(** X5.  On a page without error indicator whose results are a list, the
    parser returns a list exactly when every work parses, and then the
    list holds the record of each work, one per work and in the order of
    the page; one work that raises makes the whole page raise. *)
Theorem parse_results_per_work (search_results : Page)
  (works : list Work) (rs : list ParsedRecord) :
  has_key (page_error search_results) = false ->
  page_results search_results = Present works ->
  (parse_results search_results query date = Ok rs <->
   Forall2 (fun w r => parse_work query date w = Ok r) works rs).
Proof.
  intros He Hr. unfold parse_results. rewrite He, Hr. simpl.
  rewrite parse_works_per_work. split.
  - now intros (parsed & -> & H).
  - intros H. now exists rs.
Qed.

(** X4.  In every parsed record the author, year, abstract, citations,
    identifier, query, date and provider are strings, never [None]; the
    abstract has at most 503 characters, the query is the one given by the
    caller and the provider is "OpenAlex". *)
Theorem parse_work_schema (work : Work) (r : ParsedRecord) :
  parse_work query date work = Ok r ->
  is_str (author r) /\ is_str (year r) /\ is_str (citations r) /\
  is_str (openalex_id r) /\
  is_short_str 503 (abstract r) /\
  search_query r = VStr query /\
  search_date r = VStr date /\
  source r = VStr "OpenAlex".
Proof.
  intros H. unfold parse_work in H.
  destruct (work_authors work) as [authors|]; simpl in H; [|discriminate].
  destruct (get_or (work_id work) EmptyString); simpl in H;
    [|discriminate].
  destruct (get_or (work_open_access work) empty_open_access);
    simpl in H; [|discriminate].
  injection H as <-. cbn [author year citations openalex_id abstract
                          search_query search_date source].
  repeat split; try (eexists; reflexivity).
  eexists. split; [reflexivity|].
  apply convert_inverted_abstract_bound.
Qed.

Lemma remove_from_skip (old t s : string) :
  PyStr.remove_from old (t ++ s) (String.length t) =
  PyStr.remove_from old s 0.
Proof.
  induction t as [|c t IH]; simpl; [reflexivity|exact IH].
Qed.

Lemma remove_all_absent (old s : string) :
  PyStr.contains old s = false -> PyStr.remove_all old s = s.
Proof.
  unfold PyStr.remove_all.
  induction s as [|c s IH]; [reflexivity|].
  cbn [PyStr.contains PyStr.remove_from]. intros H.
  apply orb_false_iff in H as [Hp Hs].
  rewrite Hp, IH by assumption. reflexivity.
Qed.

Lemma prefix_app (old s : string) : String.prefix old (old ++ s) = true.
Proof.
  induction old as [|c old IH]; simpl.
  - now destruct s.
  - destruct (ascii_dec c c); [exact IH|congruence].
Qed.

Lemma remove_all_prefixed (c : ascii) (old s : string) :
  PyStr.contains (String c old) s = false ->
  PyStr.remove_all (String c old) (String c old ++ s) = s.
Proof.
  intros H. unfold PyStr.remove_all.
  change (String c old ++ s)%string with (String c (old ++ s)).
  cbn [PyStr.remove_from].
  change (String c (old ++ s)) with (String c old ++ s)%string.
  rewrite prefix_app.
  replace (String.length (String c old) - 1)%nat with (String.length old)
    by (simpl; lia).
  rewrite remove_from_skip. now apply remove_all_absent.
Qed.

(** X7.  The identifier of a parsed record is the identifier of the work
    without the prefix "https://openalex.org/": for a work whose id is the
    prefix followed by a name in which the prefix does not occur, the
    record carries that name. *)
Theorem parse_work_openalex_id (work : Work) (r : ParsedRecord)
  (name : string) :
  work_id work = Present (openalex_prefix ++ name)%string ->
  PyStr.contains openalex_prefix name = false ->
  parse_work query date work = Ok r ->
  openalex_id r = VStr name.
Proof.
  intros Hid Hname H. unfold parse_work in H.
  destruct (work_authors work) as [authors|]; simpl in H; [|discriminate].
  rewrite Hid in H. simpl get_or in H. cbn [bind] in H.
  destruct (get_or (work_open_access work) empty_open_access);
    simpl in H; [|discriminate].
  injection H as <-. cbn [openalex_id]. f_equal.
  exact (remove_all_prefixed "h" "ttps://openalex.org/" name Hname).
Qed.

End ParserRecords.

Lemma parse_work_schema_witness :
  exists r,
    parse_work "q" "2025-01-01 00:00:00" example_work = Ok r /\
    is_short_str 503 (abstract r) /\ source r = VStr "OpenAlex".
Proof.
  eexists. split; [reflexivity|].
  split;
    eapply (parse_work_schema "q" "2025-01-01 00:00:00" example_work);
    reflexivity.
Defined.

Lemma parse_results_per_work_witness :
  has_key (page_error (page_of 2)) = false /\
  page_results (page_of 2) = Present [example_work; example_work] /\
  exists rs,
    parse_results (page_of 2) "q" "2025-01-01 00:00:00" = Ok rs /\
    Forall2 (fun w r => parse_work "q" "2025-01-01 00:00:00" w = Ok r)
            [example_work; example_work] rs.
Proof.
  split; [reflexivity|]. split; [reflexivity|].
  eexists. split; [reflexivity|].
  apply (parse_results_per_work "q" "2025-01-01 00:00:00" (page_of 2));
    reflexivity.
Defined.

Lemma parse_work_raises_witness :
  parses example_work /\
  exists r, parse_work "q" "2025-01-01 00:00:00" example_work = Ok r.
Proof.
  assert (H : parses example_work).
  { split; [|split; discriminate].
    repeat constructor; discriminate. }
  split; [exact H|].
  now apply (parse_work_raises "q" "2025-01-01 00:00:00" example_work).
Defined.

Lemma parse_work_openalex_id_witness :
  work_id example_work = Present (openalex_prefix ++ "W1")%string /\
  PyStr.contains openalex_prefix "W1" = false /\
  exists r,
    parse_work "q" "2025-01-01 00:00:00" example_work = Ok r /\
    openalex_id r = VStr "W1".
Proof.
  split; [reflexivity|]. split; [reflexivity|].
  eexists. split; [reflexivity|].
  apply (parse_work_openalex_id "q" "2025-01-01 00:00:00" example_work);
    reflexivity.
Defined.

(** ** Paginated retriever *)

Section RetrieverRequests.

Variable net : Network.
Variable now : nat -> string.
Variable query : string.
Variable max_results : Z.
Variable search_type : string.

Abbreviation run_loop :=
  (while_loop net now query max_results search_type).
Abbreviation fetch_one := (fetch net query search_type).

Lemma fetch_request (log : list Request) (page : Z)
  (x : result Page * list Request) :
  fetch_one log page = Some x ->
  exists params,
    x = try_get net log params /\ shaped search_type query params.
Proof.
  unfold fetch, shaped.
  destruct (String.eqb search_type "title_abstract") eqn:E1.
  { apply String.eqb_eq in E1. intros H. injection H as <-.
    eexists. split; [reflexivity|]. subst search_type. simpl.
    repeat split; discriminate. }
  destruct (String.eqb search_type "general") eqn:E2.
  { apply String.eqb_eq in E2. intros H. injection H as <-.
    eexists. split; [reflexivity|]. subst search_type. simpl.
    repeat split; discriminate. }
  destruct (String.eqb search_type "title_only") eqn:E3; [|discriminate].
  apply String.eqb_eq in E3. intros H. injection H as <-.
  eexists. split; [reflexivity|]. subst search_type. simpl.
  repeat split; discriminate.
Qed.

Lemma fetch_invalid (log : list Request) (page : Z) :
  ~ valid_mode search_type -> fetch_one log page = None.
Proof.
  intros H. unfold fetch.
  destruct (String.eqb search_type "title_abstract") eqn:E1.
  { apply String.eqb_eq in E1. contradiction H. now left. }
  destruct (String.eqb search_type "general") eqn:E2.
  { apply String.eqb_eq in E2. contradiction H. right. now left. }
  destruct (String.eqb search_type "title_only") eqn:E3; [|reflexivity].
  apply String.eqb_eq in E3. contradiction H. right. now right.
Qed.

Lemma loop_shaped (fuel : nat) :
  forall acc page log out log',
    run_loop fuel acc page log = (out, log') ->
    exists sent,
      log' = log ++ sent /\ Forall (shaped search_type query) sent.
Proof.
  assert (Hnil : forall log : list Request,
             exists sent,
               log = log ++ sent /\ Forall (shaped search_type query) sent).
  { intros log. exists []. now rewrite app_nil_r. }
  assert (Hone : forall (log : list Request) params,
             shaped search_type query params ->
             exists sent,
               log ++ [params] = log ++ sent /\
               Forall (shaped search_type query) sent).
  { intros log params H. exists [params]. split; [reflexivity|].
    constructor; [assumption|constructor]. }
  induction fuel as [|fuel IH]; intros acc page log out log' H.
  { injection H as _ <-. apply Hnil. }
  cbn [while_loop] in H.
  destruct (Z.of_nat (List.length acc) <? max_results)%Z.
  2:{ injection H as _ <-. apply Hnil. }
  destruct (fetch_one log page) as [x|] eqn:Hf.
  2:{ injection H as _ <-. apply Hnil. }
  apply fetch_request in Hf as (params & -> & Hs).
  unfold try_get in H.
  destruct (match net (List.length log) params with
            | Json body => Ok body
            | RequestFailed _ message => Ok (error_page message)
            | OtherFailure e => Raise e
            end) as [batch|e].
  2:{ injection H as _ <-. now apply Hone. }
  destruct (has_key (page_error batch)).
  { injection H as _ <-. now apply Hone. }
  destruct (no_results batch).
  { injection H as _ <-. now apply Hone. }
  destruct (parse_results batch query (now (List.length log)))
    as [parsed|e].
  2:{ injection H as _ <-. now apply Hone. }
  destruct (progress_total max_results batch).
  2:{ injection H as _ <-. now apply Hone. }
  destruct (Z.of_nat (List.length parsed) <? per_page)%Z.
  { injection H as _ <-. now apply Hone. }
  apply IH in H as (sent & -> & Hsent).
  exists (params :: sent). rewrite <- app_assoc.
  split; [reflexivity|now constructor].
Qed.

Lemma loop_request_count (fuel : nat) :
  forall acc page log out log',
    run_loop fuel acc page log = (out, log') ->
    (200 * (Z.of_nat (List.length log') - Z.of_nat (List.length log))
     <= Z.max 0 (max_results - Z.of_nat (List.length acc) + 199))%Z.
Proof.
  induction fuel as [|fuel IH]; intros acc page log out log' H.
  { injection H as _ <-. lia. }
  cbn [while_loop] in H.
  destruct (Z.of_nat (List.length acc) <? max_results)%Z eqn:Hlt.
  2:{ injection H as _ <-. lia. }
  apply Z.ltb_lt in Hlt.
  destruct (fetch_one log page) as [x|] eqn:Hf.
  2:{ injection H as _ <-. lia. }
  apply fetch_request in Hf as (params & -> & _).
  unfold try_get in H.
  destruct (match net (List.length log) params with
            | Json body => Ok body
            | RequestFailed _ message => Ok (error_page message)
            | OtherFailure e => Raise e
            end) as [batch|e].
  2:{ injection H as _ <-. rewrite length_app. cbn [List.length]. lia. }
  destruct (has_key (page_error batch)).
  { injection H as _ <-. rewrite length_app. cbn [List.length]. lia. }
  destruct (no_results batch).
  { injection H as _ <-. rewrite length_app. cbn [List.length]. lia. }
  destruct (parse_results batch query (now (List.length log)))
    as [parsed|e].
  2:{ injection H as _ <-. rewrite length_app. cbn [List.length]. lia. }
  destruct (progress_total max_results batch).
  2:{ injection H as _ <-. rewrite length_app. cbn [List.length]. lia. }
  destruct (Z.of_nat (List.length parsed) <? per_page)%Z eqn:Hs.
  { injection H as _ <-. rewrite length_app. cbn [List.length]. lia. }
  apply Z.ltb_ge in Hs. unfold per_page in Hs.
  apply IH in H. rewrite !length_app in H.
  cbn [List.length] in H. lia.
Qed.

(** X8.  In the modes other than title_only the requests of a retrieval
    carry the page numbers 1, 2, 3, ... in the order they are sent: the
    request of rank [i] (from 0) asks for page [i + 1], so the page
    numbers increase strictly and none is asked twice. *)
Theorem get_all_results_pages (i : nat) (r : Request) :
  search_type <> "title_only" ->
  nth_error (snd (get_all_results net now query max_results search_type)) i
    = Some r ->
  req_page r = Some (1 + Z.of_nat i)%Z.
Proof.
  intros Hm Hr. unfold get_all_results in Hr.
  destruct (run_loop (S (Z.to_nat max_results)) [] 1%Z []) as [out log]
    eqn:E.
  apply loop_log in E as (sent & -> & Hpages & _).
  simpl in Hr. now apply Hpages.
Qed.

(** X9.  Every request of a retrieval asks for 200 works per page and for
    the same projection of fields, and carries the normalised query: in
    the filter "title_and_abstract.search:" with the sort by relevance in
    the mode title_abstract, in the search key without sort in the mode
    general, in the filter "title.search:" without sort in the mode
    title_only. *)
Theorem get_all_results_requests :
  Forall (shaped search_type query)
         (snd (get_all_results net now query max_results search_type)).
Proof.
  unfold get_all_results.
  destruct (run_loop (S (Z.to_nat max_results)) [] 1%Z []) as [out log]
    eqn:E.
  apply loop_shaped in E as (sent & -> & H). exact H.
Qed.

(** X10.  A retrieval sends at most [max_results / 200] requests, rounded
    up, and none when [max_results] is not positive. *)
Theorem get_all_results_request_count :
  (200 * Z.of_nat
           (List.length
              (snd (get_all_results net now query max_results search_type)))
   <= Z.max 0 (max_results + 199))%Z.
Proof.
  unfold get_all_results.
  destruct (run_loop (S (Z.to_nat max_results)) [] 1%Z []) as [out log]
    eqn:E.
  apply loop_request_count in E. cbn [snd List.length] in *. lia.
Qed.

(** X11.  With [max_results] not positive the retriever returns the empty
    list without sending a request, whatever the mode, even an unknown
    one; with [max_results >= 1] an unknown mode raises ValueError before
    any request is sent. *)
Theorem get_all_results_edge :
  ((max_results <= 0)%Z ->
   get_all_results net now query max_results search_type
     = (Returned [], [])) /\
  ((1 <= max_results)%Z -> ~ valid_mode search_type ->
   get_all_results net now query max_results search_type
     = (Raised ValueError, [])).
Proof.
  unfold get_all_results. split.
  - intros H. rewrite loop_full by (simpl; lia).
    unfold slice_upto. destruct (max_results <? 0)%Z;
      now rewrite firstn_nil.
  - intros H Hm. cbn [while_loop].
    destruct (Z.of_nat (List.length (@nil ParsedRecord)) <? max_results)%Z
      eqn:E; [|simpl in E; lia].
    now rewrite fetch_invalid.
Qed.

(** X12.  When the first request fails with an exception of the request
    family, [save_to_csv] reports "No se encontraron resultados nuevos"
    with the counts 0 and 0, as for a search without results, and performs
    no operation on the file. *)
Theorem save_to_csv_first_failure (csv : CsvFile) (csv_filename : string)
  (e : RequestException) (failure : string) :
  valid_mode search_type ->
  (1 <= max_results)%Z ->
  (forall params, net 0%nat params = RequestFailed e failure) ->
  exists params stats,
    save_to_csv net now csv query csv_filename max_results search_type
      = (Returned stats, csv, [], [params]) /\
    message stats = "No se encontraron resultados nuevos" /\
    new_records stats = 0%Z /\ total_records stats = 0%Z.
Proof.
  intros Hm Hmax Hnet.
  destruct (fetch_failed net query search_type [] 1%Z e failure Hm Hnet)
    as [params Hf].
  exists params. unfold save_to_csv, get_all_results.
  rewrite (loop_error net now query max_results search_type _ [] 1%Z []
             ([] ++ [params]) (error_page failure));
    [|simpl; lia|exact Hf|reflexivity].
  simpl. eexists. repeat split.
Qed.

(** X18.  The progress line can end a retrieval: when the first page has
    results that parse but its [meta] is null the retriever raises
    AttributeError, and when the [count] inside [meta] is null it raises
    TypeError; the records of the page are not returned. *)
Theorem get_all_results_null_meta (p : Page)
  (parsed : list ParsedRecord) :
  valid_mode search_type ->
  (1 <= max_results)%Z ->
  (forall params, net 0%nat params = Json p) ->
  has_key (page_error p) = false ->
  parse_results p query (now 0%nat) = Ok parsed ->
  parsed <> [] ->
  (page_meta p = Null ->
   fst (get_all_results net now query max_results search_type)
     = Raised AttributeError) /\
  (forall m,
      page_meta p = Present m -> meta_count m = Null ->
      fst (get_all_results net now query max_results search_type)
        = Raised TypeError).
Proof.
  intros Hm Hmax Hnet He Hp Hne.
  destruct (fetch_json net query search_type [] 1%Z p Hm Hnet)
    as [params Hf].
  pose proof (parse_results_nonempty query p (now 0%nat) parsed He Hp Hne)
    as Hn.
  unfold get_all_results. cbn [while_loop].
  destruct (Z.of_nat (List.length (@nil ParsedRecord)) <? max_results)%Z
    eqn:E; [|simpl in E; lia].
  rewrite Hf, He, Hn. cbn [List.length]. rewrite Hp.
  unfold progress_total. split.
  - intros ->. reflexivity.
  - intros m -> Hc. simpl. rewrite Hc. reflexivity.
Qed.

End RetrieverRequests.

Lemma get_all_results_pages_witness :
  "general" <> "title_only" /\
  exists r,
    nth_error (snd (get_all_results net_full noon "q" 400 "general")) 1
      = Some r /\
    req_page r = Some 2%Z.
Proof.
  split; [discriminate|].
  eexists. split; [vm_compute; reflexivity|].
  apply (get_all_results_pages net_full noon "q" 400 "general" 1);
    [discriminate|vm_compute; reflexivity].
Defined.

Lemma get_all_results_edge_witness :
  ((0 <= 0)%Z /\
   get_all_results net_full noon "q" 0 "by_author" = (Returned [], [])) /\
  ((1 <= 5)%Z /\ ~ valid_mode "by_author" /\
   get_all_results net_full noon "q" 5 "by_author"
     = (Raised ValueError, [])).
Proof.
  assert (H : ~ valid_mode "by_author")
    by (intros [H | [H | H]]; discriminate).
  split.
  - split; [lia|].
    apply (get_all_results_edge net_full noon "q" 0 "by_author"). lia.
  - split; [lia|]. split; [exact H|].
    apply (get_all_results_edge net_full noon "q" 5 "by_author");
      [lia|exact H].
Defined.

Lemma save_to_csv_first_failure_witness :
  valid_mode "general" /\ (1 <= 100)%Z /\
  exists params stats,
    save_to_csv net_down noon (Table [example_record]) "q" "f.csv" 100
                "general"
      = (Returned stats, Table [example_record], [], [params]) /\
    total_records stats = 0%Z.
Proof.
  assert (H : valid_mode "general") by (right; left; reflexivity).
  split; [exact H|]. split; [lia|].
  destruct (save_to_csv_first_failure net_down noon "q" 100 "general"
              (Table [example_record]) "f.csv" ConnectionError
              "Connection refused" H)
    as (params & stats & E & _ & _ & T); [lia|reflexivity|].
  exists params, stats. now split.
Defined.

(** ** Consolidator *)

Section ConsolidatorRows.

Lemma drop_duplicates_last_nonempty (rows : list ParsedRecord) :
  rows <> [] -> drop_duplicates_last rows <> [].
Proof.
  destruct rows as [|r rows]; [congruence|]. intros _ E.
  assert (H : In (dedup_key r)
                 (map dedup_key (drop_duplicates_last (r :: rows))))
    by (apply drop_duplicates_last_keys; now left).
  now rewrite E in H.
Qed.

(** X14.  A new record wins over an existing row: a saved row whose key
    occurs among the new records is one of the new records, never the row
    of the existing table. *)
Theorem consolidate_new_wins (existing_df new_df : list ParsedRecord)
  (r : ParsedRecord) :
  In r (fst (consolidate existing_df new_df)) ->
  In (dedup_key r) (map dedup_key new_df) ->
  In r new_df.
Proof.
  rewrite consolidate_rows. intros Hr Hk.
  apply drop_duplicates_last_kept in Hr as (before & after & E & Hlast).
  apply app_eq_app in E as [l [[E1 E2] | [E1 E2]]].
  - destruct l as [|x l]; simpl in E2.
    + rewrite <- E2. now left.
    + injection E2 as -> ->. contradiction Hlast.
      rewrite map_app, in_app_iff. now right.
  - rewrite E2. apply in_or_app. right. now left.
Qed.

(** X16.  When there is no file yet, or the file cannot be parsed, or it
    holds no row, and the retrieval returns at least one record,
    [save_to_csv] tries one read and writes once: the new file holds the
    new records without those that have a later record of the same key,
    so a file that cannot be parsed is replaced.  [new_records] is the
    number of records retrieved, [total_records] the number of rows
    written, between 1 and [new_records], and [duplicates_removed] their
    difference. *)
Theorem save_to_csv_stats (net : Network) (now : nat -> string)
  (csv : CsvFile) (query csv_filename : string) (max_results : Z)
  (search_type : string) (r : ParsedRecord) (rs : list ParsedRecord)
  (log : list Request) :
  csv = NoFile \/ csv = Unreadable \/ csv = Table [] ->
  get_all_results net now query max_results search_type
    = (Returned (r :: rs), log) ->
  exists stats rows,
    save_to_csv net now csv query csv_filename max_results search_type
      = (Returned stats, Table rows, [ReadCsv; ToCsv rows], log) /\
    rows = drop_duplicates_last (r :: rs) /\
    new_records stats = Z.of_nat (List.length (r :: rs)) /\
    total_records stats = Z.of_nat (List.length rows) /\
    (1 <= total_records stats <= new_records stats)%Z /\
    duplicates_removed stats =
      Some (new_records stats - total_records stats)%Z.
Proof.
  intros Hcsv H. unfold save_to_csv. rewrite H.
  unfold merge_and_persist, consolidate.
  assert (Hread : read_csv csv = [])
    by (destruct Hcsv as [-> | [-> | ->]]; reflexivity).
  rewrite Hread. cbv beta iota zeta.
  eexists. eexists. split; [reflexivity|].
  split; [reflexivity|]. cbn [new_records total_records duplicates_removed].
  split; [reflexivity|]. split; [reflexivity|]. split; [|reflexivity].
  pose proof (drop_duplicates_last_length (r :: rs)) as Hle.
  assert (Hne : drop_duplicates_last (r :: rs) <> [])
    by (apply drop_duplicates_last_nonempty; discriminate).
  destruct (drop_duplicates_last (r :: rs)); [congruence|].
  cbn [List.length] in *. lia.
Qed.

End ConsolidatorRows.

Lemma consolidate_again_witness :
  (forall k,
      In k (map dedup_key [read_row updated_record]) <->
      In k (map dedup_key
              (fst (consolidate [example_record] [updated_record])))) /\
  fst (consolidate [example_record] [updated_record]) = [updated_record] /\
  List.length
    (fst (consolidate [read_row updated_record] [updated_record])) = 1%nat.
Proof.
  assert (H : forall k,
             In k (map dedup_key [read_row updated_record]) <->
             In k (map dedup_key
                     (fst (consolidate [example_record]
                                       [updated_record]))))
    by (intros k; reflexivity).
  split; [exact H|]. split; [reflexivity|].
  exact (consolidate_again [example_record] [read_row updated_record]
           [updated_record] H).
Defined.

Lemma consolidate_new_wins_witness :
  example_record <> updated_record /\
  dedup_key example_record = dedup_key updated_record /\
  In updated_record
     (fst (consolidate [example_record] [updated_record])) /\
  In updated_record [updated_record] /\
  ~ In example_record
       (fst (consolidate [example_record] [updated_record])).
Proof.
  assert (Hkey : In (dedup_key updated_record)
                    (map dedup_key [updated_record]))
    by (now left).
  assert (Hkept : In updated_record
                     (fst (consolidate [example_record] [updated_record])))
    by (now left).
  split; [discriminate|]. split; [reflexivity|].
  split; [exact Hkept|].
  split;
    [exact (consolidate_new_wins [example_record] [updated_record]
              updated_record Hkept Hkey)|].
  intros Hold.
  destruct (consolidate_new_wins [example_record] [updated_record]
              example_record Hold Hkey) as [E | []].
  discriminate E.
Defined.

Lemma save_to_csv_stats_witness :
  (Unreadable = NoFile \/ Unreadable = Unreadable \/
   Unreadable = Table []) /\
  exists r rs log stats rows,
    get_all_results
      (net_of [work_without_doi "A"; work_without_doi "B"])
      noon "q" 10 "general" = (Returned (r :: rs), log) /\
    save_to_csv
      (net_of [work_without_doi "A"; work_without_doi "B"])
      noon Unreadable "q" "f.csv" 10 "general"
      = (Returned stats, Table rows, [ReadCsv; ToCsv rows], log) /\
    new_records stats = 2%Z /\
    total_records stats = 1%Z /\
    duplicates_removed stats = Some 1%Z.
Proof.
  assert (Hcsv : Unreadable = NoFile \/ Unreadable = Unreadable \/
                 Unreadable = Table [])
    by (right; left; reflexivity).
  split; [exact Hcsv|].
  do 3 eexists.
  edestruct (save_to_csv_stats
               (net_of [work_without_doi "A"; work_without_doi "B"]) noon
               Unreadable "q" "f.csv" 10 "general")
    as (stats & rows & E & -> & N & T & _ & D);
    [exact Hcsv|vm_compute; reflexivity|].
  exists stats. eexists. split; [vm_compute; reflexivity|].
  split; [exact E|].
  split; [rewrite N; reflexivity|].
  split; [rewrite T; reflexivity|].
  rewrite D, N, T. reflexivity.
Defined.

(** ** Entry point *)

Section EntryPoint.

Lemma save_to_csv_log (net : Network) (now : nat -> string)
  (csv : CsvFile) (query csv_filename : string) (max_results : Z)
  (search_type : string) :
  snd (save_to_csv net now csv query csv_filename max_results search_type)
  = snd (get_all_results net now query max_results search_type).
Proof.
  unfold save_to_csv.
  destruct (get_all_results net now query max_results search_type)
    as [[new_results|e|] log]; try reflexivity.
  now destruct (merge_and_persist csv_filename csv new_results)
    as [[stats csv'] ops].
Qed.

Lemma get_all_results_first_request (net : Network)
  (now : nat -> string) (query : string) (max_results : Z)
  (search_type : string) :
  valid_mode search_type ->
  (1 <= max_results)%Z ->
  exists first rest,
    snd (get_all_results net now query max_results search_type)
    = first :: rest.
Proof.
  intros Hm Hmax. unfold get_all_results. cbn [while_loop].
  destruct (Z.of_nat (List.length (@nil ParsedRecord)) <? max_results)%Z
    eqn:E; [|simpl in E; lia].
  destruct (fetch_valid net query search_type [] 1%Z Hm) as [params ->].
  unfold try_get. cbn [app List.length].
  destruct (match net 0%nat params with
            | Json body => Ok body
            | RequestFailed _ message => Ok (error_page message)
            | OtherFailure e => Raise e
            end) as [batch|e]; [|do 2 eexists; reflexivity].
  destruct (has_key (page_error batch)); [do 2 eexists; reflexivity|].
  destruct (no_results batch); [do 2 eexists; reflexivity|].
  destruct (parse_results batch query (now 0%nat)) as [parsed|e];
    [|do 2 eexists; reflexivity].
  destruct (progress_total max_results batch); [|do 2 eexists; reflexivity].
  destruct (Z.of_nat (List.length parsed) <? per_page)%Z;
    [do 2 eexists; reflexivity|].
  match goal with
  | |- context [while_loop ?n ?c ?q ?m ?t ?f ?a ?p ?l] =>
      destruct (while_loop n c q m t f a p l) as [out log] eqn:El
  end.
  apply loop_log in El as (sent & -> & _). cbn [snd app].
  do 2 eexists; reflexivity.
Qed.

(** X17.  [main] does nothing on a blank input: no request, no file
    operation.  On any other input it runs [save_to_csv] on the stripped
    input with the file "openalex_results.csv", a budget of 1000 records
    and the mode title_abstract, and hands back its result: at least one
    request is sent, the first one for page 1, at most 5 in all, each a
    title-and-abstract filter request of 200 works for that query. *)
Theorem main_requests (input : string) (net : Network)
  (now : nat -> string) (csv : CsvFile) :
  (PyStr.strip input = EmptyString ->
   main input net now csv = (None, csv, [], [])) /\
  (PyStr.strip input <> EmptyString ->
   exists result csv' ops first rest,
     save_to_csv net now csv (PyStr.strip input) "openalex_results.csv"
                 1000 "title_abstract"
       = (result, csv', ops, first :: rest) /\
     main input net now csv = (Some result, csv', ops, first :: rest) /\
     req_page first = Some 1%Z /\
     (List.length (first :: rest) <= 5)%nat /\
     Forall (shaped "title_abstract" (PyStr.strip input)) (first :: rest)).
Proof.
  unfold main. split; [now intros ->|].
  intros Hne.
  assert (Ht : PyStr.truthy (PyStr.strip input) = true)
    by (destruct (PyStr.strip input); [congruence|reflexivity]).
  rewrite Ht. cbn [negb].
  pose proof (save_to_csv_log net now csv (PyStr.strip input)
                "openalex_results.csv" 1000 "title_abstract") as Hlog.
  destruct (get_all_results_first_request net now (PyStr.strip input)
              1000 "title_abstract") as (first & rest & Hfirst);
    [now left|lia|].
  destruct (save_to_csv net now csv (PyStr.strip input)
              "openalex_results.csv" 1000 "title_abstract")
    as [[[result csv'] ops] log].
  cbn [snd] in Hlog. rewrite Hfirst in Hlog. subst log.
  exists result, csv', ops, first, rest.
  split; [reflexivity|]. split; [reflexivity|].
  unfold get_all_results in Hfirst.
  destruct (while_loop net now (PyStr.strip input) 1000 "title_abstract"
              (S (Z.to_nat 1000)) [] 1%Z []) as [out log] eqn:E.
  cbn [snd] in Hfirst. subst log.
  split; [|split].
  - apply loop_log in E as (sent & Hsent & Hpages & _).
    cbn [app] in Hsent. subst sent.
    rewrite (Hpages ltac:(discriminate) 0%nat first eq_refl).
    reflexivity.
  - apply loop_request_count in E. cbn [List.length] in *. lia.
  - apply loop_shaped in E as (sent & Hsent & H).
    cbn [app] in Hsent. now subst sent.
Qed.

End EntryPoint.

Lemma main_requests_witness :
  (PyStr.strip "   " = EmptyString /\
   main "   " net_full noon NoFile = (None, NoFile, [], [])) /\
  (PyStr.strip " peronismo " <> EmptyString /\
   exists result csv' ops first rest,
     main " peronismo " net_full noon NoFile
       = (Some result, csv', ops, first :: rest) /\
     req_page first = Some 1%Z /\
     req_filter first = Some "title_and_abstract.search:peronismo").
Proof.
  split.
  - split; [reflexivity|].
    now apply (main_requests "   " net_full noon NoFile).
  - assert (H : PyStr.strip " peronismo " <> EmptyString) by discriminate.
    split; [exact H|].
    destruct (main_requests " peronismo " net_full noon NoFile) as [_ Hrun].
    destruct (Hrun H)
      as (result & csv' & ops & first & rest & _ & Hmain & Hpage & _ & Hs).
    exists result, csv', ops, first, rest.
    split; [exact Hmain|]. split; [exact Hpage|].
    inversion Hs as [|? ? Hshape _]; subst.
    destruct Hshape as (_ & _ & Hta & _).
    destruct (Hta eq_refl) as [Hfilter _]. exact Hfilter.
Defined.

Lemma get_all_results_null_meta_witness :
  let p := {| page_error := Absent;
              page_results := Present [example_work];
              page_meta := Null |} in
  valid_mode "general" /\ (1 <= 10)%Z /\
  has_key (page_error p) = false /\ page_meta p = Null /\
  fst (get_all_results (fun _ _ => Json p) noon "q" 10 "general")
    = Raised AttributeError.
Proof.
  intros p.
  assert (H : valid_mode "general") by (right; left; reflexivity).
  split; [exact H|]. split; [lia|]. split; [reflexivity|].
  split; [reflexivity|].
  refine (proj1 (get_all_results_null_meta (fun _ _ => Json p) noon "q" 10
                  "general" p
                  (match parse_results p "q" (noon 0%nat) with
                   | Ok l => l
                   | Raise _ => []
                   end) H _ _ _ _ _) _).
  - lia.
  - reflexivity.
  - reflexivity.
  - reflexivity.
  - vm_compute. discriminate.
  - reflexivity.
Defined.
